(** * YouTube automator backend: a shallow embedding of the request handlers

    The development follows the Python sources:

    - [backend/routes/upload.py]   : [allowed_file], [upload_video], [validate_upload]
    - [backend/routes/metadata.py] : [generate_metadata], [generate_title_only],
                                     [generate_description_only], [generate_keywords]
    - [playlists.py]               : [list_playlists], [create_playlist],
                                     [list_playlist_videos], [add_video_to_playlist],
                                     [delete_playlist]
    - [youtube_service.py], [app.py] : [get_youtube_service], [get_channel_info],
                                     [validate_video_id], [get_video_categories]
    - [auth.py]                    : [auth_status], [login], [callback], [logout]
    - [backend/services/thumbnail_service.py] : the title layout of [generate_thumbnail]

    Python [str] values are Rocq strings, one character per [ascii]; the
    character classes below ([isspace], [lower]) are the ASCII part of
    Python's tables, and characters above 127 are opaque (neither white
    space nor cased).  Dictionaries are [gmap]s, sets are [gset]s.  Handlers
    run in a state-and-exception monad over a [World] (file system, session,
    log, calls made to the video host); the answers of the external services
    are read from an [Env]. *)

From Stdlib Require Import ZArith Ascii String List Lia DecimalString.
From stdpp Require Import base option gmap strings list fin_maps.

Local Open Scope Z_scope.

(* ===================================================================== *)
(** ** Python string operations *)
(* ===================================================================== *)

Module Str.

(** [c.isspace()] on the ASCII range: TAB, LF, VT, FF, CR, FS, GS, RS, US
    and the blank. *)
Definition isspace (c : ascii) : bool :=
  match c with
  | "009" | "010" | "011" | "012" | "013"
  | "028" | "029" | "030" | "031" | " " => true
  | _ => false
  end%char.

(** [c.lower()] on the ASCII range. *)
Definition lower_char (c : ascii) : ascii :=
  let n := nat_of_ascii c in
  if ((65 <=? n) && (n <=? 90))%nat then ascii_of_nat (n + 32) else c.

Fixpoint lower (s : string) : string :=
  match s with
  | EmptyString => EmptyString
  | String c r => String (lower_char c) (lower r)
  end.

(** [s.lstrip()], [s.rstrip()], [s.strip()] *)
Fixpoint lstrip (s : string) : string :=
  match s with
  | EmptyString => EmptyString
  | String c r => if isspace c then lstrip r else s
  end.

Fixpoint rstrip (s : string) : string :=
  match s with
  | EmptyString => EmptyString
  | String c r =>
      match rstrip r with
      | EmptyString => if isspace c then EmptyString else String c EmptyString
      | r' => String c r'
      end
  end.

Definition strip (s : string) : string := lstrip (rstrip s).

(** [c in s] for a one-character needle. *)
Fixpoint contains (c : ascii) (s : string) : bool :=
  match s with
  | EmptyString => false
  | String d r => if Ascii.eqb d c then true else contains c r
  end.

(** [s.split(sep)] for a one-character separator: never the empty list. *)
Fixpoint split (sep : ascii) (s : string) : list string :=
  match s with
  | EmptyString => [EmptyString]
  | String c r =>
      if Ascii.eqb c sep then EmptyString :: split sep r
      else match split sep r with
           | h :: t => String c h :: t
           | [] => [String c EmptyString]
           end
  end.

(** [s.rsplit(sep, 1)]: cut at the last separator, one or two pieces. *)
Fixpoint rsplit1 (sep : ascii) (s : string) : list string :=
  match s with
  | EmptyString => [EmptyString]
  | String c r =>
      match rsplit1 sep r with
      | [a; b] => [String c a; b]
      | _ => if Ascii.eqb c sep then [EmptyString; r] else [String c r]
      end
  end.

(** [sep.join(l)] *)
Fixpoint join (sep : string) (l : list string) : string :=
  match l with
  | [] => EmptyString
  | [x] => x
  | x :: rest => x +:+ sep +:+ join sep rest
  end.

(** Python truthiness of a string. *)
Definition truthy (s : string) : bool :=
  match s with EmptyString => false | _ => true end.

(** [str(n)] for an integer. *)
Definition of_Z (n : Z) : string := NilZero.string_of_int (Z.to_int n).

End Str.

(* ===================================================================== *)
(** ** upload.py: the extension allow-list *)
(* ===================================================================== *)

Definition ALLOWED_EXTENSIONS : gset string :=
  {[ "mp4"; "avi"; "mov"; "wmv"; "flv"; "webm"; "mkv" ]}.

(** [allowed_file(filename)].  The right operand of [and] is only evaluated
    when the name contains a dot, so [rsplit(...)[1]] exists; the [None]
    branch stands for the [IndexError] that cannot happen. *)
Definition allowed_file (filename : string) : bool :=
  Str.contains "." filename &&
  match Str.rsplit1 "." filename !! 1%nat with
  | Some ext => bool_decide (Str.lower ext ∈ ALLOWED_EXTENSIONS)
  | None => false
  end.


(** The comprehension [[tag.strip() for tag in tags if tag.strip()]], used by
    [upload_video] (line 49) and by [generate_metadata] (line 107). *)
Definition clean_tags (tags : list string) : list string :=
  map Str.strip (filter (λ tag, Is_true (Str.truthy (Str.strip tag))) tags).

(* ===================================================================== *)
(** ** Exceptions, JSON bodies, responses *)
(* ===================================================================== *)

(** [googleapiclient.errors.HttpError] carries the host's payload
    ([e.content], already decoded) and its text [str(e)]; every other
    exception is kept by its text. *)
Inductive exn : Type :=
| HttpError (content : option string) (text : string)
| Exception (text : string).

Definition str_exn (e : exn) : string :=
  match e with HttpError _ t => t | Exception t => t end.

#[warnings="-register-all"] Inductive json : Type :=
| JNull
| JBool (b : bool)
| JInt (n : Z)
| JStr (s : string)
| JList (l : list json)
| JDict (d : list (string * json))
| JRound (num den : Z) (digits : Z).   (* round(num / den, digits), a float *)

(** What a view function returns: [jsonify(d), code]; a bare [jsonify(d)] is
    status 200. *)
Record Response : Type := mkResponse {
  body : list (string * json);
  status : Z
}.

Definition jsonify (d : list (string * json)) : Response := mkResponse d 200.
Definition with_status (r : Response) (code : Z) : Response := mkResponse (body r) code.

(** [response_json.get(key)] *)
Fixpoint dict_get (key : string) (d : list (string * json)) : option json :=
  match d with
  | [] => None
  | (k, v) :: rest => if String.eqb k key then Some v else dict_get key rest
  end.

(* ===================================================================== *)
(** ** The world the handlers act on *)
(* ===================================================================== *)

(** A path is a directory and a file name in it ([os.path.join]). *)
Definition path : Type := string * string.
Definition os_path_join (dir name : string) : path := (dir, name).

Inductive FileData : Type :=
| Text (s : string)          (* a text file, such as the token file *)
| Blob (size : Z).           (* an uploaded video of [size] bytes *)

Inductive Level : Type := INFO | WARNING | ERROR.

(** The body of a [videos().insert] request. *)
Record VideoBody : Type := mkVideoBody {
  snippet_title : string;
  snippet_description : string;
  snippet_tags : list string;
  snippet_categoryId : string;
  status_privacyStatus : string;
  status_embeddable : bool;
  status_license : string;
  status_publicStatsViewable : bool
}.

(** Calls made to the video host, in order. *)
Inductive HostCall : Type :=
| PlaylistsList (part : string) (mine : bool) (maxResults : Z) (pageToken : option string)
| VideosInsert (part : string) (vbody : VideoBody) (media : path)
| NextChunk
| PlaylistItemsInsert (part : string) (playlistId : string) (videoId : string).

Record World : Type := mkWorld {
  fs : gmap string (gmap string FileData);   (* directory |-> its files *)
  session : gmap string string;              (* the Flask session *)
  log : list (Level * string);
  host_calls : list HostCall
}.

Definition set_fs (f : gmap string (gmap string FileData)) (w : World) : World :=
  mkWorld f (session w) (log w) (host_calls w).
Definition set_session (s : gmap string string) (w : World) : World :=
  mkWorld (fs w) s (log w) (host_calls w).
Definition add_log (l : Level) (msg : string) (w : World) : World :=
  mkWorld (fs w) (session w) (log w ++ [(l, msg)]) (host_calls w).
Definition add_call (c : HostCall) (w : World) : World :=
  mkWorld (fs w) (session w) (log w) (host_calls w ++ [c]).

(** *** The monad: state over [World], with Python exceptions *)

Definition M (A : Type) : Type := World → (exn + A) * World.

Global Instance M_ret : MRet M := λ A a w, (inr a, w).
Global Instance M_bind : MBind M := λ A B k m w,
  match m w with
  | (inl e, w') => (inl e, w')
  | (inr a, w') => k a w'
  end.

Definition raise {A : Type} (e : exn) : M A := λ w, (inl e, w).

(** [try: m  except Exception as e: h e] *)
Definition try_except {A : Type} (m : M A) (h : exn → M A) : M A := λ w,
  match m w with
  | (inl e, w') => h e w'
  | (inr a, w') => (inr a, w')
  end.

(** [try: m  except HttpError as e: h content text]; other exceptions pass. *)
Definition try_except_http {A : Type} (m : M A) (h : option string → string → M A) : M A :=
  λ w,
  match m w with
  | (inl (HttpError c t), w') => h c t w'
  | r => r
  end.

(** [try: m  finally: f]: [f] runs on every outcome of [m]; an exception of
    [f] replaces the outcome. *)
Definition try_finally {A : Type} (m : M A) (f : M unit) : M A := λ w,
  match m w with
  | (r, w') =>
      match f w' with
      | (inl e, w'') => (inl e, w'')
      | (inr _, w'') => (r, w'')
      end
  end.

Definition logger (l : Level) (msg : string) : M unit := λ w, (inr (), add_log l msg w).
Definition call_host (c : HostCall) : M unit := λ w, (inr (), add_call c w).

(** *** File-system primitives *)

Definition lookup_file (p : path) (f : gmap string (gmap string FileData)) : option FileData :=
  d ← f !! p.1; d !! p.2.

Definition os_path_exists (p : path) : M bool := λ w,
  (inr (bool_decide (is_Some (lookup_file p (fs w)))), w).

(** [open(p).read()] *)
Definition read_file (p : path) : M FileData := λ w,
  match lookup_file p (fs w) with
  | Some data => (inr data, w)
  | None => (inl (Exception "No such file or directory"), w)
  end.

(** [with open(p, 'w') as f: f.write(data)], also [file.save(p)] *)
Definition write_file (p : path) (data : FileData) : M unit := λ w,
  match fs w !! p.1 with
  | Some d => (inr (), set_fs (<[p.1 := <[p.2 := data]> d]> (fs w)) w)
  | None => (inl (Exception "No such file or directory"), w)
  end.

Definition os_remove (p : path) : M unit := λ w,
  match fs w !! p.1 with
  | Some d =>
      match d !! p.2 with
      | Some _ => (inr (), set_fs (<[p.1 := delete p.2 d]> (fs w)) w)
      | None => (inl (Exception "No such file or directory"), w)
      end
  | None => (inl (Exception "No such file or directory"), w)
  end.

Definition os_rmdir (dir : string) : M unit := λ w,
  match fs w !! dir with
  | Some d =>
      if bool_decide (d = ∅) then (inr (), set_fs (delete dir (fs w)) w)
      else (inl (Exception "Directory not empty"), w)
  | None => (inl (Exception "No such file or directory"), w)
  end.

(* ===================================================================== *)
(** ** Requests, configuration and the external services *)
(* ===================================================================== *)

(** A werkzeug [FileStorage]: its name and the length of its stream. *)
Record FileStorage : Type := mkFile {
  filename : string;
  stream_length : Z
}.

(** [file.seek(offset, whence)] returns the new position; [file.tell()]
    reads it back. *)
Definition seek (file : FileStorage) (offset whence : Z) : Z :=
  if whence =? 2 then stream_length file + offset else offset.

Record Request : Type := mkRequest {
  files_video : option FileStorage;          (* request.files.get('video') *)
  form : gmap string string;                 (* request.form *)
  get_json : option (gmap string string)     (* request.get_json() *)
}.

(** A request as it arrives, before werkzeug has parsed its body: the length
    of the body and what the body parses to.  The body is parsed when
    [request.files] (or [request.form]) is first read. *)
Record HttpRequest : Type := mkHttpRequest {
  content_length : Z;
  parsed : Request
}.

(** [d.get(key, default)] *)
Definition get_default (d : gmap string string) (key dflt : string) : string :=
  default dflt (d !! key).

(** [app.config]: [TOKEN_FILE] is always set by [app.py].  Flask's default
    configuration holds the key [MAX_CONTENT_LENGTH] with the value [None],
    so the entry is [None] or a number, and [config.get(key, default)]
    returns the entry, never its [default] argument. *)
Record Config : Type := mkConfig {
  TOKEN_FILE : path;
  MAX_CONTENT_LENGTH : option Z
}.

(** app.py, lines 49-55. *)
Definition app_config (token_file : path) : Config :=
  mkConfig token_file (Some (500 * 1024 * 1024)).

(** google-auth [Credentials]: the fields the handlers observe. *)
Record Credentials : Type := mkCredentials {
  token : option string;
  refresh_token : option string;
  expiry : option Z
}.

(** [creds.expired] and [creds.valid] at time [now] (the library's clock
    skew is folded into [expiry]). *)
Definition expired (now : Z) (c : Credentials) : bool :=
  match expiry c with
  | None => false
  | Some e => e <=? now
  end.

Definition valid (now : Z) (c : Credentials) : bool :=
  match token c with
  | None => false
  | Some _ => negb (expired now c)
  end.

(** The handle [build('youtube', 'v3', credentials=creds)] returns; as an
    object it is always truthy. *)
Record Service : Type := mkService { service_credentials : Credentials }.

(** A playlist resource as the host lists it with [part='snippet,status']:
    the handler indexes [id], [snippet.title], [snippet.publishedAt] and
    [status.privacyStatus], and reads the other fields with [.get]. *)
Record PlaylistItem : Type := mkItem {
  item_id : string;
  item_title : string;
  item_description : option string;
  item_thumbnail_url : option (option (option string));
      (* thumbnails? / default? / url? *)
  item_privacyStatus : string;
  item_itemCount : option (option Z);   (* contentDetails? / itemCount? *)
  item_publishedAt : string
}.

Record Page : Type := mkPage {
  page_items : option (list PlaylistItem);   (* response.get('items') *)
  nextPageToken : option string              (* response.get('nextPageToken') *)
}.

(** The terminal response of a resumable upload. *)
Record VideoResource : Type := mkVideo { video_id : string }.

(** A chat-completion request: the prompt template, the context
    interpolated into it, and the sampling parameters (temperature in
    tenths).  The fixed wording of the templates is not spelled out. *)
Inductive PromptKind : Type := TitlePrompt | DescriptionPrompt | TagsPrompt | CategoryPrompt.

Record ChatRequest : Type := mkChat {
  chat_model : string;
  chat_prompt : PromptKind;
  chat_context : string;
  chat_max_tokens : Z;
  chat_temperature_tenths : Z
}.

(** What the outside world answers.  Every external call either raises or
    returns; a resumable upload is a finite run of intermediate chunks
    followed by a terminal outcome. *)
Record Env : Type := mkEnv {
  config : Config;
  now : Z;
  (* google-auth *)
  from_authorized_user_file : FileData → exn + Credentials;
  to_json : Credentials → string;
  refresh : Credentials → exn + Credentials;
  build : Credentials → exn + Service;
  (* werkzeug, tempfile *)
  secure_filename : string → string;
  extensions_order : list string;            (* list(ALLOWED_EXTENSIONS), a set *)
  mkdtemp_name : string;
  save_error : option exn;
  (* the video host *)
  videos_insert_error : option exn;
  upload_chunks : list (option Z);           (* status: None, or int(progress*100) *)
  upload_final : exn + (option Z * VideoResource);
  playlist_insert_error : option exn;
  playlist_pages : list (exn + Page);
  (* the language model: [choices[0].message.content], or an error *)
  chat_completion : ChatRequest → exn + string
}.

Definition lift {A : Type} (r : exn + A) : M A := λ w, (r, w).

Definition fail_if (e : option exn) : M unit :=
  match e with Some x => raise x | None => mret () end.

(** Early [return] inside a block: the block yields [Return v] to leave the
    function with [v], or [Next x] to go on. *)
Inductive flow (R A : Type) : Type :=
| Return (r : R)
| Next (a : A).
Arguments Return {R A} r.
Arguments Next {R A} a.

(** Python truthiness of an optional string ([None] and [''] are falsy). *)
Definition truthy_opt (o : option string) : bool :=
  match o with Some s => Str.truthy s | None => false end.

(* ===================================================================== *)
(** ** youtube_service.py and app.py: [get_youtube_service] *)
(* ===================================================================== *)

(** [Credentials.from_authorized_user_file(token_path, scopes)] *)
Definition load_authorized_user_file (env : Env) (token_path : path) : M Credentials :=
  data ← read_file token_path;
  lift (from_authorized_user_file env data).

(** [creds.refresh(Request())] followed by the rewrite of the token file. *)
Definition refresh_and_save (env : Env) (token_path : path) (creds : Credentials)
    : M Credentials :=
  creds' ← lift (refresh env creds);
  write_file token_path (Text (to_json env creds'));;
  mret creds'.

Module YoutubeService.

(** youtube_service.py, lines 14-58: one [try] around the whole body. *)
Definition get_youtube_service (env : Env) : M (option Service) :=
  try_except
    (let token_path := TOKEN_FILE (config env) in
     (* Load existing credentials *)
     present ← os_path_exists token_path;
     loaded ←
       (if (present : bool) then
          try_except
            (creds ← load_authorized_user_file env token_path;
             mret (Next (Some creds)))
            (λ e, logger ERROR ("Error loading credentials: " +:+ str_exn e);;
                  mret (Return None))
        else mret (Next None));
     match loaded with
     | Return r => mret r
     | Next creds =>
         (* Check if credentials are valid *)
         checked ←
           match creds with
           | Some c =>
               if valid (now env) c then mret (Next c)
               else if expired (now env) c && truthy_opt (refresh_token c) then
                 try_except
                   (c' ← refresh_and_save env token_path c;
                    logger INFO "Credentials refreshed successfully";;
                    mret (Next c'))
                   (λ e, logger ERROR ("Error refreshing token: " +:+ str_exn e);;
                         mret (Return None))
               else
                 (logger WARNING "No valid credentials available";;
                  mret (Return None))
           | None =>
               logger WARNING "No valid credentials available";;
               mret (Return None)
           end;
         match checked with
         | Return r => mret r
         | Next c =>
             (* Build and return YouTube service *)
             youtube ← lift (build env c);
             mret (Some youtube)
         end
     end)
    (λ e, logger ERROR ("Error building YouTube service: " +:+ str_exn e);;
          mret None).

End YoutubeService.

Module App.

(** app.py, lines 95-124: the same steps, each guarded on its own. *)
Definition get_youtube_service (env : Env) : M (option Service) :=
  let token_path := TOKEN_FILE (config env) in
  present ← os_path_exists token_path;
  loaded ←
    (if (present : bool) then
       try_except
         (creds ← load_authorized_user_file env token_path;
          mret (Next (Some creds)))
         (λ e, logger ERROR ("Error loading credentials: " +:+ str_exn e);;
               mret (Return None))
     else mret (Next None));
  match loaded with
  | Return r => mret r
  | Next creds =>
      checked ←
        match creds with
        | Some c =>
            if valid (now env) c then mret (Next c)
            else if expired (now env) c && truthy_opt (refresh_token c) then
              try_except
                (c' ← refresh_and_save env token_path c;
                 mret (Next c'))
                (λ e, logger ERROR ("Error refreshing token: " +:+ str_exn e);;
                      mret (Return None))
            else mret (Return None)
        | None => mret (Return None)
        end;
      match checked with
      | Return r => mret r
      | Next c =>
          try_except
            (youtube ← lift (build env c); mret (Some youtube))
            (λ e, logger ERROR ("Error building YouTube service: " +:+ str_exn e);;
                  mret None)
      end
  end.

End App.

(* ===================================================================== *)
(** ** auth.py: [logout] *)
(* ===================================================================== *)

Definition session_clear : M unit := λ w, (inr (), set_session ∅ w).

(** auth.py, lines 206-228. *)
Definition logout (env : Env) : M Response :=
  try_except
    (let token_path := TOKEN_FILE (config env) in
     present ← os_path_exists token_path;
     (if (present : bool) then os_remove token_path else mret ());;
     (* Clear session *)
     session_clear;;
     mret (jsonify [("message", JStr "Successfully logged out");
                    ("status", JStr "success")]))
    (λ e, logger ERROR ("Error during logout: " +:+ str_exn e);;
          mret (with_status (jsonify [("error", JStr (str_exn e));
                                      ("status", JStr "error")]) 500)).

(* ===================================================================== *)
(** ** upload.py: [upload_video] and [validate_upload] *)
(* ===================================================================== *)

(** [tempfile.mkdtemp()]: a new, empty directory. *)
Definition tempfile_mkdtemp (env : Env) : M string := λ w,
  match fs w !! mkdtemp_name env with
  | Some _ => (inl (Exception "No usable temporary directory name found"), w)
  | None => (inr (mkdtemp_name env), set_fs (<[mkdtemp_name env := ∅]> (fs w)) w)
  end.

(** [file.save(temp_path)] *)
Definition file_save (env : Env) (file : FileStorage) (p : path) : M unit :=
  fail_if (save_error env);;
  write_file p (Blob (stream_length file)).

(** [MediaFileUpload(temp_path, chunksize=-1, resumable=True, ...)] opens
    the file. *)
Definition MediaFileUpload (p : path) : M path :=
  _ ← read_file p; mret p.

Definition log_progress (st : option Z) : M unit :=
  match st with
  | Some percent => logger INFO ("Upload progress: " +:+ Str.of_Z percent +:+ "%")
  | None => mret ()
  end.

(** [while response is None: status, response = insert_request.next_chunk()],
    against a resumable upload that ends: the chunks of [chunks], then the
    terminal outcome. *)
Fixpoint next_chunk_loop (chunks : list (option Z))
    (final : exn + (option Z * VideoResource)) : M VideoResource :=
  match chunks with
  | st :: rest =>
      call_host NextChunk;;
      log_progress st;;
      next_chunk_loop rest final
  | [] =>
      call_host NextChunk;;
      r ← lift final;
      log_progress r.1;;
      mret r.2
  end.

(** Lines 105-125: the best-effort attach to a playlist. *)
Definition add_to_playlist (env : Env) (playlist_id : option string) (vid : string)
    : M unit :=
  match playlist_id with
  | Some pid =>
      if Str.truthy pid then
        try_except_http
          (call_host (PlaylistItemsInsert "snippet" pid vid);;
           fail_if (playlist_insert_error env);;
           logger INFO ("Video added to playlist: " +:+ pid))
          (λ _ text, logger WARNING ("Failed to add video to playlist: " +:+ text))
      else mret ()
  | None => mret ()
  end.

(** Lines 135-141: the [finally] block. *)
Definition cleanup (temp_path : path) (temp_dir : string) : M unit :=
  try_except
    (os_remove temp_path;; os_rmdir temp_dir)
    (λ e, logger WARNING ("Failed to clean up temp file: " +:+ str_exn e)).

Definition upload_success (vid title : string) : Response :=
  jsonify [("video_id", JStr vid);
           ("video_url", JStr ("https://www.youtube.com/watch?v=" +:+ vid));
           ("title", JStr title);
           ("status", JStr "success");
           ("message", JStr "Video uploaded successfully")].

(** Lines 62-133, the body of the inner [try]: the resumable upload, then
    the attach. *)
Definition upload_and_attach (env : Env) (title description : string)
    (tags : list string) (category_id privacy_status : string)
    (playlist_id : option string) (temp_path : path) : M Response :=
  (* Prepare video metadata *)
  let vbody := mkVideoBody title description tags category_id
                           privacy_status true "youtube" true in
  (* Create media upload object *)
  media ← MediaFileUpload temp_path;
  (* Upload video *)
  logger INFO ("Starting upload for video: " +:+ title);;
  call_host (VideosInsert "snippet,status" vbody media);;
  fail_if (videos_insert_error env);;
  (* Execute upload with progress tracking *)
  response ← next_chunk_loop (upload_chunks env) (upload_final env);
  let vid := video_id response in
  logger INFO ("Video uploaded successfully: " +:+ vid);;
  (* Add to playlist if specified *)
  add_to_playlist env playlist_id vid;;
  mret (upload_success vid title).

(** Lines 143-156, the two [except] clauses of the outer [try].  The
    payload of an [HttpError] is the text [e.content.decode('utf-8')]
    gives: a payload that is not UTF-8 is not among the errors described. *)
Definition upload_error (e : exn) : M Response :=
  match e with
  | HttpError content text =>
      logger ERROR ("YouTube API error: " +:+ text);;
      let error_content := if truthy_opt content then default "" content else text in
      mret (with_status
              (jsonify [("error", JStr ("YouTube API error: " +:+ error_content));
                        ("status", JStr "error")]) 400)
  | Exception text =>
      logger ERROR ("Upload error: " +:+ text);;
      mret (with_status
              (jsonify [("error", JStr text); ("status", JStr "error")]) 500)
  end.

(** upload.py, lines 25-156. *)
Definition upload_video (env : Env) (request : Request) : M Response :=
  try_except
    (match files_video request with
     | None => mret (with_status (jsonify [("error", JStr "No video file provided")]) 400)
     | Some file =>
         if String.eqb (filename file) "" then
           mret (with_status (jsonify [("error", JStr "No file selected")]) 400)
         else if negb (allowed_file (filename file)) then
           mret (with_status (jsonify [("error", JStr "File type not allowed")]) 400)
         else
           (* Get metadata from form data *)
           let title := get_default (form request) "title" "Untitled Video" in
           let description := get_default (form request) "description" "" in
           let tags := if truthy_opt (form request !! "tags")
                       then Str.split "," (get_default (form request) "tags" "")
                       else [] in
           let category_id := get_default (form request) "category_id" "22" in
           let privacy_status := get_default (form request) "privacy_status" "private" in
           let playlist_id := form request !! "playlist_id" in
           (* Clean tags *)
           let tags := clean_tags tags in
           (* Get YouTube service *)
           youtube ← YoutubeService.get_youtube_service env;
           match youtube with
           | None =>
               mret (with_status
                       (jsonify [("error", JStr "YouTube authentication required")]) 401)
           | Some _ =>
               (* Save uploaded file temporarily *)
               let name := secure_filename env (filename file) in
               temp_dir ← tempfile_mkdtemp env;
               let temp_path := os_path_join temp_dir name in
               file_save env file temp_path;;
               try_finally
                 (upload_and_attach env title description tags category_id
                                    privacy_status playlist_id temp_path)
                 (* Clean up temporary file *)
                 (cleanup temp_path temp_dir)
           end
     end)
    upload_error.

(** werkzeug refuses a body longer than [MAX_CONTENT_LENGTH], when that is
    set, at the moment the body is parsed: reading [request.files] raises
    [RequestEntityTooLarge] (HTTP 413). *)
Definition RequestEntityTooLarge : exn :=
  Exception "413 Request Entity Too Large: The data value transmitted exceeds the capacity limit.".

Definition request_files (env : Env) (http : HttpRequest) : M (option FileStorage) :=
  match MAX_CONTENT_LENGTH (config env) with
  | Some max_content_length =>
      if content_length http >? max_content_length
      then raise RequestEntityTooLarge
      else mret (files_video (parsed http))
  | None => mret (files_video (parsed http))
  end.

(** [file_size > max_size]: comparing a number with [None] raises. *)
Definition gt_None : exn :=
  Exception "'>' not supported between instances of 'int' and 'NoneType'".

(** upload.py, lines 168-209; [files] is the reading of [request.files],
    the first thing the [try] block does. *)
Definition validate_upload_from (files : M (option FileStorage)) (env : Env) : M Response :=
  try_except
    (video ← files;
     match video with
     | None => mret (with_status (jsonify [("error", JStr "No video file provided")]) 400)
     | Some file =>
         if String.eqb (filename file) "" then
           mret (with_status (jsonify [("error", JStr "No file selected")]) 400)
         else if negb (allowed_file (filename file)) then
           mret (with_status
                   (jsonify [("valid", JBool false);
                             ("error", JStr ("File type not allowed. Supported formats: "
                                             +:+ Str.join ", " (extensions_order env)))])
                   400)
         else
           (* Check file size *)
           let file_size := seek file 0 2 in        (* seek to end, tell *)
           let _ := seek file 0 0 in                (* reset to beginning *)
           match MAX_CONTENT_LENGTH (config env) with
           | None => raise gt_None
           | Some max_size =>
               if file_size >? max_size then
                 mret (with_status
                         (jsonify [("valid", JBool false);
                                   ("error", JStr ("File too large. Maximum size: "
                                                   +:+ Str.of_Z (max_size / (1024 * 1024))
                                                   +:+ "MB"))])
                         400)
               else
                 mret (jsonify [("valid", JBool true);
                                ("filename", JStr (secure_filename env (filename file)));
                                ("size", JInt file_size);
                                ("size_mb", JRound file_size (1024 * 1024) 2)])
           end
     end)
    (λ e, logger ERROR ("Validation error: " +:+ str_exn e);;
          mret (with_status
                  (jsonify [("valid", JBool false); ("error", JStr (str_exn e))]) 500)).

(** The endpoint on a request whose body werkzeug has parsed. *)
Definition validate_upload (env : Env) (request : Request) : M Response :=
  validate_upload_from (mret (files_video request)) env.

(** The endpoint as it is served: the body is parsed, or refused, when the
    handler reads [request.files]. *)
Module Served.

Definition validate_upload (env : Env) (http : HttpRequest) : M Response :=
  validate_upload_from (request_files env http) env.

End Served.

(* ===================================================================== *)
(** ** metadata.py: [generate_metadata] *)
(* ===================================================================== *)

Definition newline : string := String "010" EmptyString.

(** Lines 106-107. *)
Definition parse_tags (content : string) : list string :=
  let tags_text := Str.strip content in
  clean_tags (Str.split "," tags_text).

Definition valid_categories : list string :=
  ["1"; "2"; "10"; "15"; "17"; "19"; "20"; "22"; "23"; "24"; "25"; "26"; "27"; "28"].

(** Lines 140-145. *)
Definition parse_category (content : string) : string :=
  let category_id := Str.strip content in
  if bool_decide (category_id ∈ valid_categories) then category_id else "22".

Definition chat (env : Env) (kind : PromptKind) (context : string)
    (max_tokens temperature_tenths : Z) : M string :=
  lift (chat_completion env (mkChat "gpt-4o-mini" kind context max_tokens temperature_tenths)).

(** metadata.py, lines 16-160. *)
Definition generate_metadata (env : Env) (request : Request) : M Response :=
  try_except
    (match get_json request with
     | None => mret (with_status (jsonify [("error", JStr "No data provided")]) 400)
     | Some data =>
         if bool_decide (data = ∅) then
           mret (with_status (jsonify [("error", JStr "No data provided")]) 400)
         else
           let input_text := get_default data "text" "" in
           let video_topic := get_default data "topic" "" in
           let target_audience := get_default data "audience" "general" in
           let video_style := get_default data "style" "informative" in
           if negb (Str.truthy input_text) && negb (Str.truthy video_topic) then
             mret (with_status
                     (jsonify [("error", JStr "Either text or topic must be provided")]) 400)
           else
             (* Combine inputs for better context *)
             let context := if Str.truthy video_topic
                            then "Topic: " +:+ video_topic +:+ newline else "" in
             let context := context +:+
                            (if Str.truthy input_text
                             then "Content: " +:+ input_text +:+ newline else "") in
             let context := context +:+ "Target Audience: " +:+ target_audience +:+ newline in
             let context := context +:+ "Style: " +:+ video_style in
             title_content ← chat env TitlePrompt context 100 7;
             let title := Str.strip title_content in
             description_content ← chat env DescriptionPrompt context 800 7;
             let description := Str.strip description_content in
             tags_content ← chat env TagsPrompt context 200 5;
             let tags := parse_tags tags_content in
             category_content ← chat env CategoryPrompt context 10 3;
             let category_id := parse_category category_content in
             mret (jsonify [("title", JStr title);
                            ("description", JStr description);
                            ("tags", JList (JStr <$> tags));
                            ("category_id", JStr category_id);
                            ("status", JStr "success")])
     end)
    (λ e, logger ERROR ("Metadata generation error: " +:+ str_exn e);;
          mret (with_status
                  (jsonify [("error", JStr (str_exn e)); ("status", JStr "error")]) 500)).

(* ===================================================================== *)
(** ** playlists.py: [list_playlists] *)
(* ===================================================================== *)

(** Lines 38-46: the summary built for one playlist. *)
Definition playlist_info (item : PlaylistItem) : json :=
  JDict [("id", JStr (item_id item));
         ("title", JStr (item_title item));
         ("description", JStr (default "" (item_description item)));
         ("thumbnail",
          match item_thumbnail_url item with
          | Some (Some (Some url)) => JStr url
          | _ => JNull
          end);
         ("privacy_status", JStr (item_privacyStatus item));
         ("video_count",
          match item_itemCount item with
          | Some (Some n) => JInt n
          | _ => JInt 0
          end);
         ("created_at", JStr (item_publishedAt item))].

(** Lines 25-51, the [while True] loop.  The host answers the successive
    requests with the entries of [script]; a host with nothing left to
    answer raises.  The script is finite: a host that hands out page tokens
    for ever is not among the hosts it describes. *)
Fixpoint list_playlists_loop (script : list (exn + Page))
    (next_page_token : option string) (playlists : list json) : M (list json) :=
  call_host (PlaylistsList "snippet,status" true 50
               (if truthy_opt next_page_token then next_page_token else None));;
  match script with
  | [] => raise (Exception "no response")
  | answer :: rest =>
      response ← lift answer;
      let playlists := playlists ++ (playlist_info <$> default [] (page_items response)) in
      let next_page_token := nextPageToken response in
      if truthy_opt next_page_token
      then list_playlists_loop rest next_page_token playlists
      else mret playlists
  end.

(** playlists.py, lines 14-71. *)
Definition list_playlists (env : Env) : M Response :=
  try_except
    (youtube ← YoutubeService.get_youtube_service env;
     match youtube with
     | None =>
         mret (with_status (jsonify [("error", JStr "YouTube authentication required")]) 401)
     | Some _ =>
         playlists ← list_playlists_loop (playlist_pages env) None [];
         mret (jsonify [("playlists", JList playlists);
                        ("total_count", JInt (Z.of_nat (length playlists)));
                        ("status", JStr "success")])
     end)
    (λ e,
       match e with
       | HttpError _ text =>
           logger ERROR ("YouTube API error: " +:+ text);;
           mret (with_status
                   (jsonify [("error", JStr ("YouTube API error: " +:+ text));
                             ("status", JStr "error")]) 400)
       | Exception text =>
           logger ERROR ("Error listing playlists: " +:+ text);;
           mret (with_status
                   (jsonify [("error", JStr text); ("status", JStr "error")]) 500)
       end).

(* ===================================================================== *)
(** ** Notions used to state the properties *)
(* ===================================================================== *)

(** A clean tag: not empty, no comma, no white space at either end. *)
Definition starts_with_space (s : string) : bool :=
  match s with
  | EmptyString => false
  | String c _ => Str.isspace c
  end.

Fixpoint ends_with_space (s : string) : bool :=
  match s with
  | EmptyString => false
  | String c EmptyString => Str.isspace c
  | String _ r => ends_with_space r
  end.

Definition clean_tag (t : string) : bool :=
  Str.truthy t && negb (Str.contains "," t)
  && negb (starts_with_space t) && negb (ends_with_space t).

(** [ext] is the extension of [name]: what follows its last dot. *)
Definition extension_of (name ext : string) : Prop :=
  ∃ stem, name = stem +:+ String "." ext ∧ Str.contains "." ext = false.

(** Follows the wording of the specification: a name is acceptable when it
    has an extension whose lower-case form is one of the seven listed. *)
Definition allowed_file_spec (name : string) : Prop :=
  ∃ ext, extension_of name ext ∧
         Str.lower ext ∈ ["mp4"; "avi"; "mov"; "wmv"; "flv"; "webm"; "mkv"].

(** The handler got as far as saving the upload: the request carries an
    acceptable file, the service handle was obtained in world [w1], the
    temporary directory could be created and the file was written. *)
Definition reaches_save (env : Env) (request : Request) (file : FileStorage)
    (w w1 : World) : Prop :=
  files_video request = Some file ∧
  filename file ≠ "" ∧
  allowed_file (filename file) = true ∧
  (∃ yt, YoutubeService.get_youtube_service env w = (inr (Some yt), w1)) ∧
  fs w1 !! mkdtemp_name env = None ∧
  save_error env = None.

(** The ways in which the stored credential cannot be used: there is no
    token file, the file cannot be loaded, the credential is expired and
    has no refresh token, or it is not valid and the refresh fails. *)
Inductive credentials_unusable (env : Env) (w : World) : Prop :=
| token_file_absent :
    lookup_file (TOKEN_FILE (config env)) (fs w) = None →
    credentials_unusable env w
| token_file_rejected (data : FileData) (e : exn) :
    lookup_file (TOKEN_FILE (config env)) (fs w) = Some data →
    from_authorized_user_file env data = inl e →
    credentials_unusable env w
| expired_without_refresh_token (data : FileData) (c : Credentials) :
    lookup_file (TOKEN_FILE (config env)) (fs w) = Some data →
    from_authorized_user_file env data = inr c →
    expired (now env) c = true →
    truthy_opt (refresh_token c) = false →
    credentials_unusable env w
| refresh_fails (data : FileData) (c : Credentials) (e : exn) :
    lookup_file (TOKEN_FILE (config env)) (fs w) = Some data →
    from_authorized_user_file env data = inr c →
    valid (now env) c = false →
    refresh env c = inl e →
    credentials_unusable env w.

(** *** A small concrete setting, used to run the handlers *)

Definition demo_token_file : path := ("instance", "token.json").

Definition demo_credentials : Credentials :=
  mkCredentials (Some "ya29.token") (Some "1//refresh") (Some 2000).

Definition demo_expired_credentials : Credentials :=
  mkCredentials (Some "ya29.token") None (Some 500).

(** The token file holds either of the two credentials above. *)
Definition demo_from_authorized_user_file (data : FileData) : exn + Credentials :=
  match data with
  | Text "fresh" => inr demo_credentials
  | Text "expired" => inr demo_expired_credentials
  | _ => inl (Exception "Expecting value: line 1 column 1 (char 0)")
  end.

Definition demo_env (final : exn + (option Z * VideoResource))
    (playlist_error : option exn) (pages : list (exn + Page))
    (completion : ChatRequest → exn + string) : Env :=
  {| config := app_config demo_token_file;
     now := 1000;
     from_authorized_user_file := demo_from_authorized_user_file;
     to_json := λ _, "fresh";
     refresh := λ _, inr demo_credentials;
     build := λ c, inr (mkService c);
     secure_filename := λ name, name;
     extensions_order := ["mkv"; "mp4"; "webm"; "avi"; "flv"; "mov"; "wmv"];
     mkdtemp_name := "/tmp/tmpa1b2c3";
     save_error := None;
     videos_insert_error := None;
     upload_chunks := [Some 40; None; Some 80];
     upload_final := final;
     playlist_insert_error := playlist_error;
     playlist_pages := pages;
     chat_completion := completion |}.

Definition demo_world (token_text : string) : World :=
  mkWorld {[ "instance" := {[ "token.json" := Text token_text ]} ]} ∅ [] [].

Definition demo_chat (category : string) (r : ChatRequest) : exn + string :=
  match chat_prompt r with
  | TitlePrompt => inr "  Build a REST API with Flask  "
  | DescriptionPrompt => inr "In this video we build a small REST API."
  | TagsPrompt => inr "flask, python ,, rest api"
  | CategoryPrompt => inr category
  end.

Definition demo_upload_request (name : string) (size : Z) (fields : gmap string string)
    : Request :=
  mkRequest (Some (mkFile name size)) fields None.

(** The request of [generate_metadata] carries a JSON object with a text or
    a topic. *)
Definition metadata_input (request : Request) (data : gmap string string) : Prop :=
  get_json request = Some data ∧
  Str.truthy (get_default data "text" "") || Str.truthy (get_default data "topic" "") = true.

(** The context [generate_metadata] interpolates into its four prompts
    (metadata.py, lines 35-38). *)
Definition metadata_context (data : gmap string string) : string :=
  let input_text := get_default data "text" "" in
  let video_topic := get_default data "topic" "" in
  let target_audience := get_default data "audience" "general" in
  let video_style := get_default data "style" "informative" in
  let context := if Str.truthy video_topic
                 then "Topic: " +:+ video_topic +:+ newline else "" in
  let context := context +:+
                 (if Str.truthy input_text
                  then "Content: " +:+ input_text +:+ newline else "") in
  let context := context +:+ "Target Audience: " +:+ target_audience +:+ newline in
  let context := context +:+ "Style: " +:+ video_style in
  context.

(** The language model answers the four prompts [generate_metadata] sends
    it for the context [context] with these four texts. *)
Definition answers (env : Env) (context title description tags category : string) : Prop :=
  chat_completion env (mkChat "gpt-4o-mini" TitlePrompt context 100 7) = inr title
  ∧ chat_completion env (mkChat "gpt-4o-mini" DescriptionPrompt context 800 7)
    = inr description
  ∧ chat_completion env (mkChat "gpt-4o-mini" TagsPrompt context 200 5) = inr tags
  ∧ chat_completion env (mkChat "gpt-4o-mini" CategoryPrompt context 10 3) = inr category.

(** A language model whose answers depend on what it is asked: the category
    answer names the context back. *)
Definition demo_echo_chat (r : ChatRequest) : exn + string :=
  match chat_prompt r with
  | TitlePrompt => inr "  Build a REST API with Flask  "
  | DescriptionPrompt => inr ("In this video: " +:+ chat_context r)
  | TagsPrompt => inr "flask, python ,, rest api"
  | CategoryPrompt => inr ("Education, given " +:+ chat_context r)
  end.

(** A multipart body holds the bytes of the file it carries and, around
    them, the boundary lines and the headers of the part: the body is
    longer than the file. *)
Definition well_framed (http : HttpRequest) : Prop :=
  ∀ file, files_video (parsed http) = Some file →
          stream_length file < content_length http.

(** werkzeug parses the body: it is no longer than [MAX_CONTENT_LENGTH], or
    that is not set. *)
Definition body_parsed (env : Env) (http : HttpRequest) : Prop :=
  ∀ limit, MAX_CONTENT_LENGTH (config env) = Some limit → content_length http ≤ limit.

(** [MAX_CONTENT_LENGTH] is set and the body is no longer than it. *)
Definition within_limit (env : Env) (http : HttpRequest) : Prop :=
  ∃ limit, MAX_CONTENT_LENGTH (config env) = Some limit ∧ content_length http ≤ limit.

(** What [validate_upload] answers when werkzeug refuses the body. *)
Definition body_refused : Response :=
  with_status (jsonify [("valid", JBool false);
                        ("error", JStr (str_exn RequestEntityTooLarge))]) 500.

(** A request as a client sends it: the body is [overhead] bytes longer than
    the file. *)
Definition demo_http_request (name : string) (size overhead : Z) : HttpRequest :=
  mkHttpRequest (size + overhead) (mkRequest (Some (mkFile name size)) ∅ None).

Definition MiB : Z := 1024 * 1024.



Definition demo_item (id title : string) : PlaylistItem :=
  mkItem id title None (Some (Some (Some ("https://i.ytimg.com/vi/" +:+ id))))
         "private" None "2024-05-01T10:00:00Z".

Definition demo_pages : list Page :=
  [mkPage (Some [demo_item "PL1" "Talks"; demo_item "PL2" "Demos"]) (Some "CAUQAA");
   mkPage None (Some "CAoQAA")].


(** Where [upload_video] keeps the upload, and the world right after
    [file.save]. *)
Definition temp_path_of (env : Env) (file : FileStorage) : path :=
  os_path_join (mkdtemp_name env) (secure_filename env (filename file)).

Definition saved_world (env : Env) (file : FileStorage) (w1 : World) : World :=
  set_fs (<[mkdtemp_name env :=
              {[secure_filename env (filename file) := Blob (stream_length file)]}]> (fs w1))
         w1.

(** The inner [try] body of [upload_video] for a given request. *)
Definition upload_job (env : Env) (request : Request) (file : FileStorage) : M Response :=
  upload_and_attach env
    (get_default (form request) "title" "Untitled Video")
    (get_default (form request) "description" "")
    (clean_tags (if truthy_opt (form request !! "tags")
                 then Str.split "," (get_default (form request) "tags" "")
                 else []))
    (get_default (form request) "category_id" "22")
    (get_default (form request) "privacy_status" "private")
    (form request !! "playlist_id")
    (temp_path_of env file).

(** The resumable upload itself went through and returned [video]. *)
Definition upload_completes (env : Env) (video : VideoResource) : Prop :=
  videos_insert_error env = None ∧ ∃ st, upload_final env = inr (st, video).

(** A computation that leaves the file system as it found it, whatever its
    outcome. *)
Definition keeps_fs {A : Type} (m : M A) : Prop := ∀ w, fs (m w).2 = fs w.

(* ===================================================================== *)
(** ** The other external calls *)
(* ===================================================================== *)

(** The body of a [playlists().insert] request (playlists.py, lines
    98-107) and the resource the host returns for it. *)
Record PlaylistBody : Type := mkPlaylistBody {
  pb_title : string;
  pb_description : string;
  pb_privacyStatus : string
}.

Record PlaylistResource : Type := mkPlaylistResource {
  resource_id : string;
  resource_title : string;
  resource_description : string;
  resource_privacyStatus : string;
  resource_publishedAt : string
}.

(** An entry of [playlistItems().list] with [part='snippet']: the handler
    indexes every field but the thumbnail. *)
Record VideoItem : Type := mkVideoItem {
  vi_videoId : string;
  vi_title : string;
  vi_description : string;
  vi_thumbnail_url : option (option (option string));
  vi_position : Z;
  vi_publishedAt : string
}.

Record VideosPage : Type := mkVideosPage {
  vp_items : option (list VideoItem);
  vp_nextPageToken : option string
}.

(** A channel of [channels().list(part='id,snippet,statistics', mine=True)]. *)
Record Channel : Type := mkChannel {
  ch_id : string;
  ch_title : string;
  ch_description : string;
  ch_thumbnail : string;
  ch_subscriberCount : option string;
  ch_videoCount : option string;
  ch_viewCount : option string
}.

(** An entry of [videoCategories().list(part='snippet', regionCode=...)]. *)
Record Category : Type := mkCategory {
  cat_id : string;
  cat_title : string;
  cat_assignable : bool
}.

(** The prompts of the single-field endpoints of metadata.py. *)
Inductive SinglePrompt : Type := TitleOnly | DescriptionOnly | Keywords.

(** What the outside world answers to the calls of the remaining handlers.
    The video host and the language model are functions of what they are
    asked. *)
Record Services : Type := mkServices {
  (* google_auth_oauthlib *)
  client_secrets_error : option exn;       (* Flow.from_client_secrets_file *)
  authorization_url : string * string;     (* (auth_url, state) *)
  fetch_token : string → string → exn + Credentials;
      (* state, request.url |-> flow.credentials after flow.fetch_token *)
  isoformat : Z → string;                  (* creds.expiry.isoformat() *)
  (* the video host *)
  playlists_insert : PlaylistBody → exn + PlaylistResource;
  playlist_items_list : string → option string → exn + VideosPage;
      (* playlistId, pageToken *)
  playlist_items_insert : string → string → exn + string;
      (* playlistId, videoId |-> response['id'] *)
  playlists_delete : string → option exn;
  channels_list : exn + list Channel;
  videos_list : string → exn + list string;
  video_categories_list : string → exn + list Category;
  (* the language model: prompt, text, max_tokens, temperature in tenths *)
  completion : SinglePrompt → string → Z → Z → exn + string;
  (* PIL: the width of [draw.textbbox((0, 0), line, font=font)] *)
  text_width : string → Z
}.

(* ===================================================================== *)
(** ** auth.py: [auth_status], [login], [callback] *)
(* ===================================================================== *)

(** auth.py, lines 16-37.  The existence test is outside the [try]. *)
Definition auth_status (env : Env) (svc : Services) : M Response :=
  let token_path := TOKEN_FILE (config env) in
  present ← os_path_exists token_path;
  if negb present then
    mret (jsonify [("authenticated", JBool false);
                   ("message", JStr "No token file found")])
  else
    try_except
      (creds ← load_authorized_user_file env token_path;
       if negb (valid (now env) creds) then
         mret (jsonify [("authenticated", JBool false);
                        ("message", JStr "Invalid or expired credentials")])
       else
         mret (jsonify [("authenticated", JBool true);
                        ("message", JStr "User is authenticated");
                        ("expires_at",
                         match expiry creds with
                         | Some e => JStr (isoformat svc e)
                         | None => JNull
                         end)]))
      (λ e, logger ERROR ("Error checking auth status: " +:+ str_exn e);;
            mret (with_status
                    (jsonify [("authenticated", JBool false);
                              ("message", JStr "Error checking authentication")]) 500)).

Definition session_set (key value : string) : M unit := λ w,
  (inr (), set_session (<[key := value]> (session w)) w).

Definition session_pop (key : string) : M unit := λ w,
  (inr (), set_session (delete key (session w)) w).

Definition session_get (key : string) : M (option string) := λ w,
  (inr (session w !! key), w).

(** auth.py, lines 39-74. *)
Definition login (svc : Services) : M Response :=
  try_except
    (fail_if (client_secrets_error svc);;
     let '(auth_url, state) := authorization_url svc in
     (* Store state in session for verification *)
     session_set "oauth_state" state;;
     mret (jsonify [("auth_url", JStr auth_url);
                    ("state", JStr state);
                    ("status", JStr "success")]))
    (λ e, logger ERROR ("Error initiating OAuth flow: " +:+ str_exn e);;
          mret (with_status
                  (jsonify [("error", JStr (str_exn e)); ("status", JStr "error")]) 500)).

(** [callback] answers with an HTML page; the two fixed pages are kept by
    name, the failure page with the text it interpolates. *)
Inductive HtmlPage : Type :=
| AuthenticationSuccessful
| AuthenticationFailed (error : string).

Inductive Reply : Type :=
| Json (r : Response)
| Html (page : HtmlPage) (code : Z).

(** auth.py, lines 76-204; [url] is [request.url]. *)
Definition callback (env : Env) (svc : Services) (url : string) : M Reply :=
  try_except
    (* Verify state parameter *)
    (stored ← session_get "oauth_state";
     match stored with
     | None =>
         mret (Json (with_status (jsonify [("error", JStr "Invalid session state")]) 400))
     | Some state =>
         fail_if (client_secrets_error svc);;
         (* Fetch token using authorization response *)
         credentials ← lift (fetch_token svc state url);
         (* Save credentials to file *)
         let token_path := TOKEN_FILE (config env) in
         write_file token_path (Text (to_json env credentials));;
         (* Clear session state *)
         session_pop "oauth_state";;
         mret (Html AuthenticationSuccessful 200)
     end)
    (λ e, logger ERROR ("Error in OAuth callback: " +:+ str_exn e);;
          mret (Html (AuthenticationFailed (str_exn e)) 500)).

(* ===================================================================== *)
(** ** playlists.py: the other endpoints *)
(* ===================================================================== *)

Definition valid_privacy : list string := ["private"; "public"; "unlisted"].

(** The two [except] clauses every playlist endpoint ends with; [what] is
    the endpoint's own wording of the second log line. *)
Definition playlist_error (what : string) (e : exn) : M Response :=
  match e with
  | HttpError _ text =>
      logger ERROR ("YouTube API error: " +:+ text);;
      mret (with_status
              (jsonify [("error", JStr ("YouTube API error: " +:+ text));
                        ("status", JStr "error")]) 400)
  | Exception text =>
      logger ERROR (what +:+ ": " +:+ text);;
      mret (with_status
              (jsonify [("error", JStr text); ("status", JStr "error")]) 500)
  end.

Definition authentication_required : Response :=
  with_status (jsonify [("error", JStr "YouTube authentication required")]) 401.

(** playlists.py, lines 73-139. *)
Definition create_playlist (env : Env) (svc : Services) (request : Request) : M Response :=
  try_except
    (match get_json request with
     | None => mret (with_status (jsonify [("error", JStr "No data provided")]) 400)
     | Some data =>
         if bool_decide (data = ∅) then
           mret (with_status (jsonify [("error", JStr "No data provided")]) 400)
         else
           let title := data !! "title" in
           let description := get_default data "description" "" in
           let privacy_status := get_default data "privacy_status" "private" in
           if negb (truthy_opt title) then
             mret (with_status (jsonify [("error", JStr "Playlist title is required")]) 400)
           else
             (* Validate privacy status *)
             let privacy_status :=
               if bool_decide (privacy_status ∈ valid_privacy)
               then privacy_status else "private" in
             youtube ← YoutubeService.get_youtube_service env;
             match youtube with
             | None => mret authentication_required
             | Some _ =>
                 response ← lift (playlists_insert svc
                                    (mkPlaylistBody (default "" title) description
                                                    privacy_status));
                 mret (jsonify
                         [("playlist",
                           JDict [("id", JStr (resource_id response));
                                  ("title", JStr (resource_title response));
                                  ("description", JStr (resource_description response));
                                  ("privacy_status", JStr (resource_privacyStatus response));
                                  ("created_at", JStr (resource_publishedAt response))]);
                          ("status", JStr "success");
                          ("message", JStr "Playlist created successfully")])
             end
     end)
    (playlist_error "Error creating playlist").

(** Lines 165-172: the summary built for one playlist entry. *)
Definition video_info (item : VideoItem) : json :=
  JDict [("id", JStr (vi_videoId item));
         ("title", JStr (vi_title item));
         ("description", JStr (vi_description item));
         ("thumbnail",
          match vi_thumbnail_url item with
          | Some (Some (Some url)) => JStr url
          | _ => JNull
          end);
         ("position", JInt (vi_position item));
         ("added_at", JStr (vi_publishedAt item))].

(** Lines 152-177, the [while True] loop, against a host that answers a
    request by its page token.  The loop has no bound of its own: [fuel]
    counts the requests, and [None] is a run that has not ended within
    them. *)
Fixpoint list_playlist_videos_loop (fuel : nat) (svc : Services) (playlist_id : string)
    (next_page_token : option string) (videos : list json) : M (option (list json)) :=
  match fuel with
  | O => mret None
  | S fuel' =>
      response ← lift (playlist_items_list svc playlist_id
                         (if truthy_opt next_page_token then next_page_token else None));
      let videos := videos ++ (video_info <$> default [] (vp_items response)) in
      let next_page_token := vp_nextPageToken response in
      if truthy_opt next_page_token
      then list_playlist_videos_loop fuel' svc playlist_id next_page_token videos
      else mret (Some videos)
  end.

(** playlists.py, lines 141-198. *)
Definition list_playlist_videos (fuel : nat) (env : Env) (svc : Services)
    (playlist_id : string) : M (option Response) :=
  try_except
    (youtube ← YoutubeService.get_youtube_service env;
     match youtube with
     | None => mret (Some authentication_required)
     | Some _ =>
         run ← list_playlist_videos_loop fuel svc playlist_id None [];
         match run with
         | None => mret None
         | Some videos =>
             mret (Some (jsonify [("videos", JList videos);
                                  ("playlist_id", JStr playlist_id);
                                  ("total_count", JInt (Z.of_nat (length videos)));
                                  ("status", JStr "success")]))
         end
     end)
    (λ e, resp ← playlist_error "Error listing playlist videos" e; mret (Some resp)).

(** playlists.py, lines 200-253. *)
Definition add_video_to_playlist (env : Env) (svc : Services) (request : Request)
    (playlist_id : string) : M Response :=
  try_except
    (match get_json request with
     | None => mret (with_status (jsonify [("error", JStr "No data provided")]) 400)
     | Some data =>
         if bool_decide (data = ∅) then
           mret (with_status (jsonify [("error", JStr "No data provided")]) 400)
         else
           let vid := data !! "video_id" in
           if negb (truthy_opt vid) then
             mret (with_status (jsonify [("error", JStr "Video ID is required")]) 400)
           else
             youtube ← YoutubeService.get_youtube_service env;
             match youtube with
             | None => mret authentication_required
             | Some _ =>
                 call_host (PlaylistItemsInsert "snippet" playlist_id (default "" vid));;
                 item_id ← lift (playlist_items_insert svc playlist_id (default "" vid));
                 mret (jsonify [("playlist_item_id", JStr item_id);
                                ("video_id", JStr (default "" vid));
                                ("playlist_id", JStr playlist_id);
                                ("status", JStr "success");
                                ("message", JStr "Video added to playlist successfully")])
             end
     end)
    (playlist_error "Error adding video to playlist").

(** playlists.py, lines 255-285. *)
Definition delete_playlist (env : Env) (svc : Services) (playlist_id : string)
    : M Response :=
  try_except
    (youtube ← YoutubeService.get_youtube_service env;
     match youtube with
     | None => mret authentication_required
     | Some _ =>
         fail_if (playlists_delete svc playlist_id);;
         mret (jsonify [("playlist_id", JStr playlist_id);
                        ("status", JStr "success");
                        ("message", JStr "Playlist deleted successfully")])
     end)
    (playlist_error "Error deleting playlist").

(* ===================================================================== *)
(** ** metadata.py: the single-field endpoints *)
(* ===================================================================== *)

(** [data.get(key, default)] where [data] is what [request.get_json()]
    returned: on [None] the attribute lookup raises. *)
Definition data_get (data : option (gmap string string)) (key dflt : string) : M string :=
  match data with
  | Some d => mret (get_default d key dflt)
  | None => raise (Exception "'NoneType' object has no attribute 'get'")
  end.

Definition metadata_error (what : string) (e : exn) : M Response :=
  logger ERROR (what +:+ ": " +:+ str_exn e);;
  mret (with_status
          (jsonify [("error", JStr (str_exn e)); ("status", JStr "error")]) 500).

Definition text_required : Response :=
  with_status (jsonify [("error", JStr "Text is required")]) 400.

(** metadata.py, lines 162-201. *)
Definition generate_title_only (svc : Services) (request : Request) : M Response :=
  try_except
    (text ← data_get (get_json request) "text" "";
     if negb (Str.truthy text) then mret text_required
     else
       content ← lift (completion svc TitleOnly text 100 7);
       let title := Str.strip content in
       mret (jsonify [("title", JStr title); ("status", JStr "success")]))
    (metadata_error "Title generation error").

(** metadata.py, lines 203-243. *)
Definition generate_description_only (svc : Services) (request : Request) : M Response :=
  try_except
    (text ← data_get (get_json request) "text" "";
     if negb (Str.truthy text) then mret text_required
     else
       content ← lift (completion svc DescriptionOnly text 600 7);
       let description := Str.strip content in
       mret (jsonify [("description", JStr description); ("status", JStr "success")]))
    (metadata_error "Description generation error").

(** metadata.py, lines 245-286. *)
Definition generate_keywords (svc : Services) (request : Request) : M Response :=
  try_except
    (text ← data_get (get_json request) "text" "";
     if negb (Str.truthy text) then mret text_required
     else
       content ← lift (completion svc Keywords text 300 5);
       let keywords_text := Str.strip content in
       let keywords := clean_tags (Str.split "," keywords_text) in
       mret (jsonify [("keywords", JList (JStr <$> keywords)); ("status", JStr "success")]))
    (metadata_error "Keywords generation error").

(* ===================================================================== *)
(** ** youtube_service.py: the helpers *)
(* ===================================================================== *)

(** [d.get(key, 0)] on the statistics of a channel. *)
Definition statistic (v : option string) : json :=
  match v with Some s => JStr s | None => JInt 0 end.

(** youtube_service.py, lines 60-83. *)
Definition get_channel_info (svc : Services) : M (option (list (string * json))) :=
  try_except
    (items ← lift (channels_list svc);
     match items with
     | channel :: _ =>
         mret (Some [("id", JStr (ch_id channel));
                     ("title", JStr (ch_title channel));
                     ("description", JStr (ch_description channel));
                     ("thumbnail", JStr (ch_thumbnail channel));
                     ("subscriber_count", statistic (ch_subscriberCount channel));
                     ("video_count", statistic (ch_videoCount channel));
                     ("view_count", statistic (ch_viewCount channel))])
     | [] => mret None
     end)
    (λ e, logger ERROR ("Error getting channel info: " +:+ str_exn e);; mret None).

(** youtube_service.py, lines 85-97. *)
Definition validate_video_id (svc : Services) (vid : string) : M bool :=
  try_except
    (items ← lift (videos_list svc vid);
     mret (0 <? Z.of_nat (length items)))
    (λ e, logger ERROR ("Error validating video ID: " +:+ str_exn e);; mret false).

(** youtube_service.py, lines 99-119; the result is a list of
    [{'id': ..., 'title': ...}]. *)
Definition get_video_categories (svc : Services) (region_code : string)
    : M (list (string * string)) :=
  try_except
    (items ← lift (video_categories_list svc region_code);
     mret ((λ item, (cat_id item, cat_title item))
             <$> filter (λ item, Is_true (cat_assignable item)) items))
    (λ e, logger ERROR ("Error getting video categories: " +:+ str_exn e);; mret []).

(* ===================================================================== *)
(** ** thumbnail_service.py: wrapping the title *)
(* ===================================================================== *)

(** [s.split()]: the maximal runs of characters that are not white space.
    [words_go s] is the run [s] starts with (empty when [s] starts with
    white space) and the words after it. *)
Fixpoint words_go (s : string) : string * list string :=
  match s with
  | EmptyString => (EmptyString, [])
  | String c r =>
      let '(w, ws) := words_go r in
      if Str.isspace c
      then (EmptyString, if Str.truthy w then w :: ws else ws)
      else (String c w, ws)
  end.

Definition split_whitespace (s : string) : list string :=
  let '(w, ws) := words_go s in if Str.truthy w then w :: ws else ws.

(** Python truthiness of a list. *)
Definition nonempty {A : Type} (l : list A) : bool :=
  match l with [] => false | _ => true end.

(** thumbnail_service.py, lines 71-81: the [for word in words] loop, with
    the image width [width]; the result is [(lines, current_line)]. *)
Fixpoint wrap_words (svc : Services) (width : Z) (words : list string)
    (lines : list string) (current_line : list string) : list string * list string :=
  match words with
  | [] => (lines, current_line)
  | word :: rest =>
      let test_line := Str.join " " (current_line ++ [word]) in
      if text_width svc test_line <=? width - 100 then      (* Leave margin *)
        wrap_words svc width rest lines (current_line ++ [word])
      else if nonempty current_line then
        wrap_words svc width rest (lines ++ [Str.join " " current_line]) [word]
      else
        wrap_words svc width rest (lines ++ [word]) []
  end.

(** Lines 67-84: the lines the title is drawn on. *)
Definition wrap_title (svc : Services) (width : Z) (title : string) : list string :=
  let words := split_whitespace title in
  let '(lines, current_line) := wrap_words svc width words [] [] in
  if nonempty current_line then lines ++ [Str.join " " current_line] else lines.

(** Lines 87-94: where line number [i] of [n] is drawn, [(x, y)]. *)
Definition line_position (svc : Services) (width height font_size : Z) (n : nat)
    (i : nat) (line : string) : Z * Z :=
  let total_height := Z.of_nat n * (font_size + 10) in
  let start_y := (height - total_height) / 2 in
  let x := (width - text_width svc line) / 2 in
  let y := start_y + Z.of_nat i * (font_size + 10) in
  (x, y).

(* ===================================================================== *)
(** ** More notions used to state the properties *)
(* ===================================================================== *)

(** The host calls a computation adds all satisfy [P]. *)
Definition only_calls {A : Type} (P : HostCall → Prop) (m : M A) : Prop :=
  ∀ w c, c ∈ host_calls (m w).2 → c ∈ host_calls w ∨ P c.

(** A computation that never lets an exception out. *)
Definition never_raises {A : Type} (m : M A) : Prop :=
  ∀ w, ∃ a w', m w = (inr a, w').

(** The pages the host serves for a playlist when the tokens are followed
    from [token]: each page but the last carries a token, the last none. *)
Inductive pages_from (svc : Services) (playlist_id : string)
    : option string → list VideosPage → Prop :=
| pages_from_last (token : option string) (page : VideosPage) :
    playlist_items_list svc playlist_id token = inr page →
    truthy_opt (vp_nextPageToken page) = false →
    pages_from svc playlist_id token [page]
| pages_from_next (token : option string) (page : VideosPage) (rest : list VideosPage) :
    playlist_items_list svc playlist_id token = inr page →
    truthy_opt (vp_nextPageToken page) = true →
    pages_from svc playlist_id (vp_nextPageToken page) rest →
    pages_from svc playlist_id token (page :: rest).

Definition videos_of (p : VideosPage) : list VideoItem := default [] (vp_items p).

(** The token file holds [data]. *)
Definition token_file_holds (env : Env) (w : World) (data : FileData) : Prop :=
  lookup_file (TOKEN_FILE (config env)) (fs w) = Some data.

(** *** More of the concrete setting *)

Definition demo_video_pages (token : option string) : exn + VideosPage :=
  match token with
  | None =>
      inr (mkVideosPage
             (Some [mkVideoItem "vid1" "Intro" "" None 0 "2024-05-01T10:00:00Z"])
             (Some "P2"))
  | Some "P2" =>
      inr (mkVideosPage
             (Some [mkVideoItem "vid2" "Part two" "" None 1 "2024-05-02T10:00:00Z"])
             None)
  | Some _ => inl (HttpError None "<HttpError 400 invalid page token>")
  end.

Definition demo_services : Services :=
  {| client_secrets_error := None;
     authorization_url := ("https://accounts.google.com/o/oauth2/auth?state=s3cr3t", "s3cr3t");
     fetch_token := λ state _,
       if String.eqb state "s3cr3t" then inr demo_credentials
       else inl (Exception "mismatching_state");
     isoformat := λ _, "2024-05-01T10:00:00";
     playlists_insert := λ b,
       inr (mkPlaylistResource "PLnew" (pb_title b) (pb_description b)
                               (pb_privacyStatus b) "2024-05-01T10:00:00Z");
     playlist_items_list := λ _ token, demo_video_pages token;
     playlist_items_insert := λ _ _, inl (HttpError None "<HttpError 404 playlistNotFound>");
     playlists_delete := λ _, None;
     channels_list := inr [];
     videos_list := λ _, inr [];
     video_categories_list := λ _, inl (Exception "timed out");
     completion := λ _ _ _ _, inr " a, b ,,c ";
     text_width := λ line, 40 * Z.of_nat (String.length line) |}.

(** A loader that reads back the credential [to_json] wrote. *)
Definition demo_roundtrip_env (c : Credentials) : Env :=
  {| config := app_config demo_token_file;
     now := 1000;
     from_authorized_user_file := λ data,
       match data with
       | Text "stored" => inr c
       | _ => inl (Exception "Expecting value: line 1 column 1 (char 0)")
       end;
     to_json := λ _, "stored";
     refresh := λ _, inr demo_credentials;
     build := λ c, inr (mkService c);
     secure_filename := λ name, name;
     extensions_order := ["mkv"; "mp4"; "webm"; "avi"; "flv"; "mov"; "wmv"];
     mkdtemp_name := "/tmp/tmpa1b2c3";
     save_error := None;
     videos_insert_error := None;
     upload_chunks := [];
     upload_final := inl (Exception "unused");
     playlist_insert_error := None;
     playlist_pages := [];
     chat_completion := λ _, inl (Exception "unused") |}.

(* ===================================================================== *)
(** ** String lemmas *)
(* ===================================================================== *)

Section StringFacts.

Local Open Scope nat_scope.

(** [+:+] does not unfold under [simpl]; these two equations do it. *)
Lemma append_nil_l (s : string) : "" +:+ s = s.
Proof. reflexivity. Qed.

Lemma append_cons (c : ascii) (a b : string) :
  String c a +:+ b = String c (a +:+ b).
Proof. reflexivity. Qed.

Lemma append_nil_r (s : string) : s +:+ "" = s.
Proof.
  induction s as [|c r IH]; [done |]. by rewrite append_cons, IH.
Qed.

Lemma append_assoc (a b c : string) : (a +:+ b) +:+ c = a +:+ b +:+ c.
Proof.
  induction a as [|x a IH]; [done |]. by rewrite !append_cons, IH.
Qed.

Lemma contains_app (c : ascii) (a b : string) :
  Str.contains c (a +:+ b) = Str.contains c a || Str.contains c b.
Proof.
  induction a as [|x a IH]; [done |].
  rewrite append_cons. simpl.
  destruct (Ascii.eqb x c); [done | apply IH].
Qed.

(** *** [rsplit] *)

Lemma rsplit1_none (sep : ascii) (s : string) :
  Str.contains sep s = false → Str.rsplit1 sep s = [s].
Proof.
  induction s as [|c r IH]; simpl; [done |].
  destruct (Ascii.eqb c sep); [done |].
  intros H. by rewrite (IH H).
Qed.

Lemma rsplit1_last (sep : ascii) (a b : string) :
  Str.contains sep b = false →
  Str.rsplit1 sep (a +:+ String sep b) = [a; b].
Proof.
  intros Hb. induction a as [|c a IH].
  - rewrite append_nil_l. simpl.
    rewrite (rsplit1_none _ _ Hb). by rewrite Ascii.eqb_refl.
  - rewrite append_cons. simpl. by rewrite IH.
Qed.

Lemma contains_cut (sep : ascii) (s : string) :
  Str.contains sep s = true →
  ∃ a b, s = a +:+ String sep b ∧ Str.contains sep b = false.
Proof.
  induction s as [|c r IH]; simpl; [done |].
  destruct (Str.contains sep r) eqn:Hr.
  - intros _. destruct (IH eq_refl) as (a & b & -> & Hb).
    by exists (String c a), b.
  - destruct (Ascii.eqb_spec c sep) as [->|]; [| done].
    intros _. by exists "", r.
Qed.

Lemma cut_unique (sep : ascii) (a a' b b' : string) :
  a +:+ String sep b = a' +:+ String sep b' →
  Str.contains sep b = false → Str.contains sep b' = false →
  a = a' ∧ b = b'.
Proof.
  intros Heq Hb Hb'.
  pose proof (rsplit1_last sep a b Hb) as H1.
  pose proof (rsplit1_last sep a' b' Hb') as H2.
  rewrite Heq in H1. rewrite H1 in H2. by simplify_eq.
Qed.

End StringFacts.

Section SplitFacts.

(** *** [strip] *)

Lemma lstrip_id (s : string) : starts_with_space s = false → Str.lstrip s = s.
Proof. destruct s as [|c r]; simpl; [done |]. by intros ->. Qed.

Lemma rstrip_id (s : string) : ends_with_space s = false → Str.rstrip s = s.
Proof.
  induction s as [|c r IH]; [done |].
  destruct r as [|d r'].
  - simpl. by intros ->.
  - intros H. change (ends_with_space (String d r') = false) in H.
    change (Str.rstrip (String c (String d r')))
      with (match Str.rstrip (String d r') with
            | EmptyString => if Str.isspace c then EmptyString else String c EmptyString
            | r0 => String c r0
            end).
    by rewrite (IH H).
Qed.

Lemma strip_id (s : string) :
  starts_with_space s = false → ends_with_space s = false → Str.strip s = s.
Proof. intros H1 H2. unfold Str.strip. by rewrite (rstrip_id _ H2), (lstrip_id _ H1). Qed.

Lemma ends_with_space_app (a b : string) :
  b ≠ "" → ends_with_space (a +:+ b) = ends_with_space b.
Proof.
  intros Hb. induction a as [|c a IH]; [done |].
  rewrite append_cons.
  destruct (a +:+ b) as [|d r] eqn:Hab.
  - destruct a; [by rewrite append_nil_l in Hab | by rewrite append_cons in Hab].
  - exact IH.
Qed.

Lemma starts_with_space_app (a b : string) :
  a ≠ "" → starts_with_space (a +:+ b) = starts_with_space a.
Proof. by destruct a. Qed.

(** *** [split] and [join] *)

Lemma split_none (sep : ascii) (s : string) :
  Str.contains sep s = false → Str.split sep s = [s].
Proof.
  induction s as [|c r IH]; simpl; [done |].
  destruct (Ascii.eqb c sep); [done |].
  intros H. by rewrite (IH H).
Qed.

Lemma split_app (sep : ascii) (a b : string) :
  Str.contains sep a = false →
  Str.split sep (a +:+ String sep b) = a :: Str.split sep b.
Proof.
  induction a as [|c a IH]; intros Ha.
  - rewrite append_nil_l. simpl. by rewrite Ascii.eqb_refl.
  - rewrite append_cons. simpl in *.
    destruct (Ascii.eqb c sep); [done |]. by rewrite (IH Ha).
Qed.

Lemma split_join (sep : ascii) (l : list string) :
  l ≠ [] → Forall (λ t, Str.contains sep t = false) l →
  Str.split sep (Str.join (String sep "") l) = l.
Proof.
  induction l as [|x [|y rest] IH]; intros Hne Hall; [done | |].
  - simpl. apply split_none. by inversion Hall.
  - change (Str.join (String sep "") (x :: y :: rest))
      with (x +:+ String sep "" +:+ Str.join (String sep "") (y :: rest)).
    rewrite append_cons, append_nil_l.
    inversion Hall as [|? ? Hx Hrest]; subst.
    rewrite (split_app _ _ _ Hx). f_equal. by apply IH.
Qed.

Lemma join_nonempty (sep : string) (x : string) (l : list string) :
  x ≠ "" → Str.join sep (x :: l) ≠ "".
Proof.
  intros Hx. destruct l; simpl; [done |].
  destruct x; [done |]. by rewrite append_cons.
Qed.

(** *** Clean tags *)

Lemma clean_tag_inv (t : string) :
  clean_tag t = true →
  t ≠ "" ∧ Str.contains "," t = false
  ∧ starts_with_space t = false ∧ ends_with_space t = false.
Proof.
  unfold clean_tag. rewrite !andb_true_iff, !negb_true_iff.
  intros [[[Ht ?] ?] ?]. by destruct t.
Qed.

Lemma clean_tag_strip (t : string) : clean_tag t = true → Str.strip t = t.
Proof. intros (_ & _ & H1 & H2)%clean_tag_inv. by apply strip_id. Qed.

Lemma clean_tags_id (l : list string) :
  Forall (λ t, clean_tag t = true) l → clean_tags l = l.
Proof.
  unfold clean_tags. induction 1 as [|t l Ht _ IH]; [done |].
  rewrite filter_cons_True.
  - simpl. rewrite (clean_tag_strip _ Ht). by f_equal.
  - rewrite (clean_tag_strip _ Ht).
    apply clean_tag_inv in Ht as (Hne & _). by destruct t.
Qed.

Lemma join_clean_edges (l : list string) :
  Forall (λ t, clean_tag t = true) l →
  starts_with_space (Str.join "," l) = false
  ∧ ends_with_space (Str.join "," l) = false.
Proof.
  induction 1 as [|t l Ht Hl IH]; [done |].
  apply clean_tag_inv in Ht as (Hne & _ & Hs & He).
  destruct l as [|y rest]; [done |].
  change (Str.join "," (t :: y :: rest))
    with (t +:+ "," +:+ Str.join "," (y :: rest)).
  split.
  - by rewrite starts_with_space_app.
  - rewrite ends_with_space_app.
    + rewrite ends_with_space_app; [apply IH |].
      apply join_nonempty. inversion Hl as [|? ? Hy _]; subst.
      by apply clean_tag_inv in Hy as (? & _).
    + done.
Qed.

End SplitFacts.

(* ===================================================================== *)
(** ** The extension allow-list ([allowed_file]) *)
(* ===================================================================== *)

Lemma allowed_extensions_list (x : string) :
  x ∈ ALLOWED_EXTENSIONS ↔ x ∈ ["mp4"; "avi"; "mov"; "wmv"; "flv"; "webm"; "mkv"].
Proof.
  unfold ALLOWED_EXTENSIONS.
  rewrite !elem_of_union, !elem_of_singleton, !elem_of_cons, elem_of_nil.
  tauto.
Qed.

(** The index [1] read by [allowed_file] is always there when the guard
    ['.' in filename] holds. *)
Lemma allowed_file_no_index_error (name : string) :
  Str.contains "." name = true → is_Some (Str.rsplit1 "." name !! 1%nat).
Proof.
  intros H. destruct (contains_cut _ _ H) as (a & b & -> & Hb).
  rewrite (rsplit1_last _ _ _ Hb). by eexists.
Qed.

Lemma allowed_file_cut (stem ext : string) :
  Str.contains "." ext = false →
  allowed_file (stem +:+ String "." ext)
  = bool_decide (Str.lower ext ∈ ALLOWED_EXTENSIONS).
Proof.
  intros Hext. unfold allowed_file.
  rewrite contains_app. simpl. rewrite orb_true_r. simpl.
  by rewrite (rsplit1_last _ _ _ Hext).
Qed.

Lemma allowed_file_dotless (name : string) :
  Str.contains "." name = false → allowed_file name = false.
Proof. intros H. unfold allowed_file. by rewrite H. Qed.

(** C10.  [allowed_file] accepts a name exactly when the name contains a dot
    and the text after its last dot, put in lower case, is one of mp4, avi,
    mov, wmv, flv, webm, mkv.  So the check ignores case ("VIDEO.MP4" is
    accepted) and needs the dot ("mp4" alone is rejected). *)
Theorem allowed_file_characterisation :
  (∀ name, allowed_file name = true ↔ allowed_file_spec name)
  ∧ allowed_file "VIDEO.MP4" = true
  ∧ allowed_file "mp4" = false.
Proof.
  split; [| split; vm_compute; reflexivity].
  intros name. split.
  - intros H. unfold allowed_file in H.
    apply andb_true_iff in H as [Hdot Hext].
    destruct (contains_cut _ _ Hdot) as (stem & ext & -> & Hnd).
    rewrite (rsplit1_last _ _ _ Hnd) in Hext. simpl in Hext.
    apply bool_decide_eq_true in Hext.
    exists ext. split; [by exists stem |]. by apply allowed_extensions_list.
  - intros (ext & (stem & -> & Hnd) & Hin).
    rewrite (allowed_file_cut _ _ Hnd).
    apply bool_decide_eq_true. by apply allowed_extensions_list.
Qed.

(* ===================================================================== *)
(** ** Tag parsing ([generate_metadata], lines 106-107) *)
(* ===================================================================== *)

(** C5.  Parsing the comma-joined text of a list of clean tags (each one
    non-empty, without a comma, without white space at either end) gives
    back the same list. *)
Theorem parse_tags_join_roundtrip (tags : list string) :
  Forall (λ t, clean_tag t = true) tags →
  parse_tags (Str.join "," tags) = tags.
Proof.
  intros Hall. unfold parse_tags.
  destruct (join_clean_edges tags Hall) as [Hs He].
  rewrite (strip_id _ Hs He).
  destruct tags as [|t rest]; [done |].
  rewrite split_join.
  - by apply clean_tags_id.
  - done.
  - eapply Forall_impl; [exact Hall |].
    intros x Hx. by apply clean_tag_inv in Hx as (_ & ? & _).
Qed.

Lemma parse_tags_join_roundtrip_witness :
  parse_tags (Str.join "," ["python"; "web dev"; "tutorial"])
  = ["python"; "web dev"; "tutorial"].
Proof.
  apply (parse_tags_join_roundtrip ["python"; "web dev"; "tutorial"]).
  repeat constructor.
Defined.

(* ===================================================================== *)
(** ** Running the monad *)
(* ===================================================================== *)

Ltac unfold_monad :=
  unfold try_except, try_except_http, try_finally, mbind, M_bind, mret, M_ret,
         raise, lift, logger, call_host, fail_if in *.

Lemma lookup_file_dir (p : path) (f : gmap string (gmap string FileData))
    (data : FileData) :
  lookup_file p f = Some data → ∃ d, f !! p.1 = Some d ∧ d !! p.2 = Some data.
Proof.
  unfold lookup_file. destruct (f !! p.1) as [d|]; simpl; [| done]. eauto.
Qed.

Lemma expired_not_valid (t : Z) (c : Credentials) :
  expired t c = true → valid t c = false.
Proof. unfold valid. intros ->. by destruct (token c). Qed.

(* ===================================================================== *)
(** ** The client factory ([get_youtube_service]) *)
(* ===================================================================== *)

Ltac unfold_service :=
  unfold YoutubeService.get_youtube_service, App.get_youtube_service,
         load_authorized_user_file, refresh_and_save,
         os_path_exists, read_file, write_file;
  unfold_monad; simpl.

Lemma youtube_service_never_raises (env : Env) (w : World) :
  ∃ r w', YoutubeService.get_youtube_service env w = (inr r, w').
Proof.
  unfold_service.
  destruct (lookup_file (TOKEN_FILE (config env)) (fs w)) as [data|] eqn:Hf;
    simpl; rewrite ?Hf; simpl; [| by eauto].
  destruct (from_authorized_user_file env data) as [e|c]; simpl; [by eauto |].
  destruct (valid (now env) c); simpl.
  { destruct (build env c); simpl; by eauto. }
  destruct (expired (now env) c && truthy_opt (refresh_token c)); simpl;
    [| by eauto].
  destruct (refresh env c) as [e|c']; simpl; [by eauto |].
  destruct (lookup_file_dir _ _ _ Hf) as (d & -> & _). simpl.
  destruct (build env c'); simpl; by eauto.
Qed.

Lemma app_service_never_raises (env : Env) (w : World) :
  ∃ r w', App.get_youtube_service env w = (inr r, w').
Proof.
  unfold_service.
  destruct (lookup_file (TOKEN_FILE (config env)) (fs w)) as [data|] eqn:Hf;
    simpl; rewrite ?Hf; simpl; [| by eauto].
  destruct (from_authorized_user_file env data) as [e|c]; simpl; [by eauto |].
  destruct (valid (now env) c); simpl.
  { destruct (build env c); simpl; by eauto. }
  destruct (expired (now env) c && truthy_opt (refresh_token c)); simpl;
    [| by eauto].
  destruct (refresh env c) as [e|c']; simpl; [by eauto |].
  destruct (lookup_file_dir _ _ _ Hf) as (d & -> & _). simpl.
  destruct (build env c'); simpl; by eauto.
Qed.

Lemma service_absent_when_unusable (env : Env) (w : World) :
  credentials_unusable env w →
  (YoutubeService.get_youtube_service env w).1 = inr None
  ∧ (App.get_youtube_service env w).1 = inr None.
Proof.
  intros [Hf | data e Hf Hp | data c Hf Hp Hexp Hrt | data c e Hf Hp Hv Hr];
    unfold_service; rewrite ?Hf; simpl; rewrite ?Hf; simpl;
    rewrite ?Hp; simpl; try done.
  - rewrite (expired_not_valid _ _ Hexp), Hexp, Hrt. done.
  - rewrite Hv.
    destruct (expired (now env) c && truthy_opt (refresh_token c)); simpl;
      [| done].
    rewrite Hr. done.
Qed.

(** C1.  [get_youtube_service] (in youtube_service.py and in app.py) never
    raises: it always returns, a handle or [None].  When the token file
    holds a credential that is expired and has no refresh token it returns
    [None]; so it does when there is no token file, when the file is
    rejected by the loader, and when the refresh fails. *)
Theorem get_youtube_service_absent (env : Env) (w : World) :
  (∃ r w', YoutubeService.get_youtube_service env w = (inr r, w'))
  ∧ (∃ r w', App.get_youtube_service env w = (inr r, w'))
  ∧ (credentials_unusable env w →
       (YoutubeService.get_youtube_service env w).1 = inr None
       ∧ (App.get_youtube_service env w).1 = inr None).
Proof.
  split; [apply youtube_service_never_raises |].
  split; [apply app_service_never_raises |].
  apply service_absent_when_unusable.
Qed.

Lemma get_youtube_service_absent_witness :
  let env := demo_env (inr (None, mkVideo "dQw4w9WgXcQ")) None [] (λ _, inr "") in
  let w := demo_world "expired" in
  credentials_unusable env w
  ∧ (YoutubeService.get_youtube_service env w).1 = inr None
  ∧ (App.get_youtube_service env w).1 = inr None.
Proof.
  intros env w.
  assert (credentials_unusable env w) as H.
  { apply (expired_without_refresh_token env w (Text "expired")
             demo_expired_credentials); reflexivity. }
  split; [exact H |].
  exact (proj2 (proj2 (get_youtube_service_absent env w)) H).
Defined.

(* ===================================================================== *)
(** ** Logout *)
(* ===================================================================== *)

(** C9.  [logout] answers status 'success' with HTTP 200 whether or not the
    token file exists; afterwards the token file is absent and the session
    is empty; a second call gives the same answer and changes nothing. *)
Theorem logout_succeeds_idempotent (env : Env) (w : World) :
  ∃ resp w',
    logout env w = (inr resp, w')
    ∧ status resp = 200
    ∧ dict_get "status" (body resp) = Some (JStr "success")
    ∧ lookup_file (TOKEN_FILE (config env)) (fs w') = None
    ∧ session w' = ∅
    ∧ logout env w' = (inr resp, w').
Proof.
  unfold logout, os_path_exists, os_remove, session_clear. unfold_monad. simpl.
  destruct (lookup_file (TOKEN_FILE (config env)) (fs w)) as [data|] eqn:Hf; simpl.
  - destruct (lookup_file_dir _ _ _ Hf) as (d & Hd & Hn).
    rewrite Hd, Hn. simpl.
    assert (lookup_file (TOKEN_FILE (config env))
              (<[(TOKEN_FILE (config env)).1 := delete (TOKEN_FILE (config env)).2 d]> (fs w))
            = None) as Hgone.
    { unfold lookup_file. rewrite lookup_insert_eq. simpl. apply lookup_delete_eq. }
    do 2 eexists. repeat split; try reflexivity; try exact Hgone.
    simpl. rewrite Hgone. reflexivity.
  - do 2 eexists. repeat split; try reflexivity; try exact Hf.
    simpl. rewrite Hf. reflexivity.
Qed.

(* ===================================================================== *)
(** ** Validation before upload ([validate_upload]) *)
(* ===================================================================== *)

(** Closes [x ∉ [a; b; ...]] for closed strings. *)
Ltac not_listed :=
  let H := fresh "H" in
  intros H; rewrite !elem_of_cons, elem_of_nil in H;
  repeat (destruct H as [H | H]; [vm_compute in H; discriminate H |]);
  exact H.


(** A body longer than [MAX_CONTENT_LENGTH] is refused when the handler
    reads [request.files]; the refusal is raised inside the [try] and the
    [except] clause turns it into HTTP 500. *)
Lemma served_validate_upload_refused (env : Env) (http : HttpRequest) (limit : Z)
    (w : World) :
  MAX_CONTENT_LENGTH (config env) = Some limit →
  content_length http > limit →
  Served.validate_upload env http w
  = (inr body_refused,
     add_log ERROR ("Validation error: " +:+ str_exn RequestEntityTooLarge) w).
Proof.
  intros Hmax Hlong.
  unfold Served.validate_upload, validate_upload_from, request_files. unfold_monad.
  rewrite Hmax.
  assert ((content_length http >? limit) = true) as ->.
  { rewrite Z.gtb_ltb. apply Z.ltb_lt. lia. }
  reflexivity.
Qed.

(** A body werkzeug parses is handled as the parsed request. *)
Lemma served_validate_upload_parsed (env : Env) (http : HttpRequest) (w : World) :
  body_parsed env http →
  Served.validate_upload env http w = validate_upload env (parsed http) w.
Proof.
  intros Hshort. unfold body_parsed in Hshort.
  unfold Served.validate_upload, validate_upload, validate_upload_from, request_files.
  destruct (MAX_CONTENT_LENGTH (config env)) as [limit|]; [| reflexivity].
  assert ((content_length http >? limit) = false) as ->; [| reflexivity].
  rewrite Z.gtb_ltb. apply Z.ltb_ge. by apply Hshort.
Qed.

(** The size check of lines 190-195, on a request that has been parsed: a
    file with an acceptable name that is larger than [MAX_CONTENT_LENGTH]
    is answered valid=false with HTTP 400. *)
Lemma validate_upload_size_check (env : Env) (request : Request)
    (file : FileStorage) (limit : Z) (w : World) :
  files_video request = Some file →
  filename file ≠ "" →
  allowed_file (filename file) = true →
  MAX_CONTENT_LENGTH (config env) = Some limit →
  stream_length file > limit →
  ∃ resp,
    validate_upload env request w = (inr resp, w)
    ∧ status resp = 400
    ∧ dict_get "valid" (body resp) = Some (JBool false).
Proof.
  intros Hfile Hname Hext Hmax Hsize.
  unfold validate_upload, validate_upload_from. unfold_monad.
  rewrite Hfile. apply String.eqb_neq in Hname. rewrite Hname, Hext. simpl.
  rewrite Hmax. unfold seek. simpl. rewrite Z.add_0_r.
  assert ((stream_length file >? limit) = true) as ->.
  { rewrite Z.gtb_ltb. apply Z.ltb_lt. lia. }
  eexists. repeat split; reflexivity.
Qed.

(** C6, as the code has it.  A file larger than the configured ceiling
    arrives in a body that is longer still, and [MAX_CONTENT_LENGTH] is also
    the limit werkzeug puts on the body: the body is refused when the
    handler reads [request.files], before the size check of lines 190-195
    is reached.  The endpoint answers valid=false with HTTP 500, not 400.
    Only a log line is added to the world: no temporary file is created
    and no call is made. *)
Theorem validate_upload_too_large (env : Env) (http : HttpRequest)
    (file : FileStorage) (limit : Z) (w : World) :
  files_video (parsed http) = Some file →
  well_framed http →
  MAX_CONTENT_LENGTH (config env) = Some limit →
  stream_length file > limit →
  ∃ resp w',
    Served.validate_upload env http w = (inr resp, w')
    ∧ status resp = 500
    ∧ dict_get "valid" (body resp) = Some (JBool false)
    ∧ fs w' = fs w ∧ session w' = session w ∧ host_calls w' = host_calls w.
Proof.
  intros Hfile Hframed Hmax Hsize.
  pose proof (Hframed file Hfile) as Hbody.
  exists body_refused. eexists. split.
  - apply (served_validate_upload_refused env http limit w Hmax). lia.
  - repeat split; reflexivity.
Qed.

Lemma validate_upload_too_large_witness :
  let env := demo_env (inr (None, mkVideo "dQw4w9WgXcQ")) None [] (demo_chat "27") in
  let http := demo_http_request "holiday.mp4" (600 * MiB) 212 in
  let w := demo_world "fresh" in
  MAX_CONTENT_LENGTH (config env) = Some (500 * MiB)
  ∧ ∃ resp w',
      Served.validate_upload env http w = (inr resp, w')
      ∧ status resp = 500
      ∧ dict_get "valid" (body resp) = Some (JBool false)
      ∧ fs w' = fs w ∧ session w' = session w ∧ host_calls w' = host_calls w.
Proof.
  intros env http w. split; [reflexivity |].
  apply (validate_upload_too_large env http (mkFile "holiday.mp4" (600 * MiB))
           (500 * MiB) w).
  - reflexivity.
  - intros file Hfile. inversion Hfile; subst. vm_compute. reflexivity.
  - reflexivity.
  - vm_compute. reflexivity.
Defined.




(* ===================================================================== *)
(** ** Category fallback ([generate_metadata], lines 140-151) *)
(* ===================================================================== *)

Lemma metadata_input_nonempty (data : gmap string string) :
  Str.truthy (get_default data "text" "") || Str.truthy (get_default data "topic" "") = true →
  data ≠ ∅.
Proof. intros H ->. unfold get_default in H. by rewrite !lookup_empty in H. Qed.

(** With usable input and four answers from the language model the handler
    returns its success body, whatever the answers are. *)
Lemma generate_metadata_success (env : Env) (request : Request)
    (data : gmap string string) (w : World) (title description tags category : string) :
  metadata_input request data →
  answers env (metadata_context data) title description tags category →
  ∃ resp,
    generate_metadata env request w = (inr resp, w)
    ∧ status resp = 200
    ∧ dict_get "title" (body resp) = Some (JStr (Str.strip title))
    ∧ dict_get "description" (body resp) = Some (JStr (Str.strip description))
    ∧ dict_get "tags" (body resp) = Some (JList (JStr <$> parse_tags tags))
    ∧ dict_get "category_id" (body resp) = Some (JStr (parse_category category)).
Proof.
  intros [Hjson Hinput] Hans.
  unfold generate_metadata, chat. unfold_monad. rewrite Hjson.
  rewrite (bool_decide_eq_false_2 _ (metadata_input_nonempty _ Hinput)).
  assert (negb (Str.truthy (get_default data "text" ""))
          && negb (Str.truthy (get_default data "topic" "")) = false) as ->.
  { rewrite <- negb_orb, Hinput. done. }
  destruct Hans as (Htitle & Hdescription & Htags & Hcategory).
  unfold metadata_context in *. cbv zeta in *.
  rewrite Htitle. simpl. rewrite Hdescription. simpl.
  rewrite Htags. simpl. rewrite Hcategory. simpl.
  eexists. repeat split; reflexivity.
Qed.

(** C4, as the code has it.  When the language model answers the four
    prompts the handler sends it for this request, and the category answer,
    with the white space around it removed, is not one of the fourteen
    permitted codes, the handler still succeeds (HTTP 200) and its
    [category_id] is "22". *)
Theorem category_defaults_to_22 (env : Env) (request : Request)
    (data : gmap string string) (w : World) (title description tags category : string) :
  metadata_input request data →
  answers env (metadata_context data) title description tags category →
  Str.strip category ∉ valid_categories →
  ∃ resp,
    generate_metadata env request w = (inr resp, w)
    ∧ status resp = 200
    ∧ dict_get "category_id" (body resp) = Some (JStr "22").
Proof.
  intros Hin Hans Hcat.
  destruct (generate_metadata_success env request data w _ _ _ _ Hin Hans)
    as (resp & Hrun & Hst & _ & _ & _ & Hc).
  exists resp. repeat split; try done.
  rewrite Hc. unfold parse_category. by rewrite bool_decide_eq_false_2.
Qed.

Lemma category_defaults_to_22_witness :
  let env := demo_env (inr (None, mkVideo "dQw4w9WgXcQ")) None [] demo_echo_chat in
  let data : gmap string string := {[ "topic" := "Flask tutorial" ]} in
  let request := mkRequest None ∅ (Some data) in
  let w := demo_world "fresh" in
  ∃ resp,
    generate_metadata env request w = (inr resp, w)
    ∧ status resp = 200
    ∧ dict_get "category_id" (body resp) = Some (JStr "22").
Proof.
  intros env data request w.
  apply (category_defaults_to_22 env request data w
           "  Build a REST API with Flask  "
           ("In this video: " +:+ metadata_context data)
           "flask, python ,, rest api"
           ("Education, given " +:+ metadata_context data)).
  - split; reflexivity.
  - repeat split; reflexivity.
  - unfold valid_categories. not_listed.
Defined.

(** C4 as worded tests the answer itself for membership.  The answer " 27"
    (with a leading blank) is not one of the fourteen strings, and the
    handler returns category "27" for it, not "22". *)
Lemma category_answer_is_stripped_first :
  ¬ (∀ (env : Env) (request : Request) (data : gmap string string) (w : World)
       (title description tags category : string),
       metadata_input request data →
       answers env (metadata_context data) title description tags category →
       category ∉ valid_categories →
       ∃ resp w',
         generate_metadata env request w = (inr resp, w')
         ∧ dict_get "category_id" (body resp) = Some (JStr "22")).
Proof.
  intros claim.
  destruct (claim (demo_env (inr (None, mkVideo "dQw4w9WgXcQ")) None [] (demo_chat " 27"))
                  (mkRequest None ∅ (Some {[ "topic" := "Flask tutorial" ]}))
                  {[ "topic" := "Flask tutorial" ]}
                  (demo_world "fresh")
                  "  Build a REST API with Flask  "
                  "In this video we build a small REST API."
                  "flask, python ,, rest api" " 27")
    as (resp & w' & Hrun & Hcat).
  - split; reflexivity.
  - repeat split; reflexivity.
  - unfold valid_categories. not_listed.
  - vm_compute in Hrun. inversion Hrun; subst. discriminate Hcat.
Qed.

(* ===================================================================== *)
(** ** Pagination ([list_playlists]) *)
(* ===================================================================== *)




(* ===================================================================== *)
(** ** Frame rules: what leaves the file system alone *)
(* ===================================================================== *)

Create HintDb frame discriminated.

Lemma keeps_fs_ret {A : Type} (a : A) : keeps_fs (mret a).
Proof. by intros w. Qed.

Lemma keeps_fs_raise {A : Type} (e : exn) : keeps_fs (@raise A e).
Proof. by intros w. Qed.

Lemma keeps_fs_lift {A : Type} (r : exn + A) : keeps_fs (lift r).
Proof. by intros w. Qed.

Lemma keeps_fs_logger (l : Level) (msg : string) : keeps_fs (logger l msg).
Proof. by intros w. Qed.

Lemma keeps_fs_call_host (c : HostCall) : keeps_fs (call_host c).
Proof. by intros w. Qed.

Lemma keeps_fs_fail_if (e : option exn) : keeps_fs (fail_if e).
Proof. by destruct e; intros w. Qed.

Lemma keeps_fs_read_file (p : path) : keeps_fs (read_file p).
Proof. intros w. unfold read_file. by destruct (lookup_file p (fs w)). Qed.

Lemma keeps_fs_bind {A B : Type} (m : M A) (k : A → M B) :
  keeps_fs m → (∀ a, keeps_fs (k a)) → keeps_fs (m ≫= k).
Proof.
  intros Hm Hk w. unfold mbind, M_bind.
  specialize (Hm w). destruct (m w) as [[e|a] w']; simpl in *; [done |].
  by rewrite Hk.
Qed.

Lemma keeps_fs_try_except {A : Type} (m : M A) (h : exn → M A) :
  keeps_fs m → (∀ e, keeps_fs (h e)) → keeps_fs (try_except m h).
Proof.
  intros Hm Hh w. unfold try_except.
  specialize (Hm w). destruct (m w) as [[e|a] w']; simpl in *; [| done].
  by rewrite Hh.
Qed.

Lemma keeps_fs_try_except_http {A : Type} (m : M A) (h : option string → string → M A) :
  keeps_fs m → (∀ c t, keeps_fs (h c t)) → keeps_fs (try_except_http m h).
Proof.
  intros Hm Hh w. unfold try_except_http.
  specialize (Hm w). destruct (m w) as [[[c t|t]|a] w']; simpl in *; [| done..].
  by rewrite Hh.
Qed.

#[export] Hint Resolve keeps_fs_ret keeps_fs_raise keeps_fs_lift keeps_fs_logger
  keeps_fs_call_host keeps_fs_fail_if keeps_fs_read_file : frame.

Ltac frame :=
  repeat lazymatch goal with
    | |- keeps_fs (try_except _ _) => apply keeps_fs_try_except; [| intros ? ]
    | |- keeps_fs (try_except_http _ _) => apply keeps_fs_try_except_http; [| intros ? ? ]
    | |- keeps_fs (_ ≫= _) => apply keeps_fs_bind; [| intros ? ]
    | |- keeps_fs _ => solve [ auto with frame ]
    end.

Lemma keeps_fs_log_progress (st : option Z) : keeps_fs (log_progress st).
Proof. destruct st; simpl; auto with frame. Qed.

#[export] Hint Resolve keeps_fs_log_progress : frame.

Lemma keeps_fs_next_chunk_loop (chunks : list (option Z))
    (final : exn + (option Z * VideoResource)) :
  keeps_fs (next_chunk_loop chunks final).
Proof. induction chunks as [|st rest IH]; simpl; frame; exact IH. Qed.

#[export] Hint Resolve keeps_fs_next_chunk_loop : frame.

Lemma keeps_fs_add_to_playlist (env : Env) (playlist_id : option string) (vid : string) :
  keeps_fs (add_to_playlist env playlist_id vid).
Proof.
  unfold add_to_playlist.
  destruct playlist_id as [pid|]; [| auto with frame].
  destruct (Str.truthy pid); [| auto with frame]. frame.
Qed.

#[export] Hint Resolve keeps_fs_add_to_playlist : frame.

Lemma keeps_fs_upload_and_attach (env : Env) (title description : string)
    (tags : list string) (category_id privacy_status : string)
    (playlist_id : option string) (temp_path : path) :
  keeps_fs (upload_and_attach env title description tags category_id
                              privacy_status playlist_id temp_path).
Proof.
  unfold upload_and_attach, MediaFileUpload. frame.
Qed.

Lemma keeps_fs_upload_error (e : exn) : keeps_fs (upload_error e).
Proof. destruct e; simpl; frame. Qed.

Lemma upload_error_returns (e : exn) (w : World) :
  ∃ resp w', upload_error e w = (inr resp, w').
Proof. destruct e; simpl; unfold_monad; by eauto. Qed.

(* ===================================================================== *)
(** ** Upload: the temporary file and the attach step *)
(* ===================================================================== *)

Lemma upload_video_reaches_save (env : Env) (request : Request) (file : FileStorage)
    (w w1 : World) :
  reaches_save env request file w w1 →
  upload_video env request w
  = try_except
      (try_finally (upload_job env request file)
                   (cleanup (temp_path_of env file) (mkdtemp_name env)))
      upload_error (saved_world env file w1).
Proof.
  intros (Hfile & Hname & Hext & (yt & Hsvc) & Hfresh & Hsave).
  unfold upload_video, tempfile_mkdtemp, file_save, write_file. unfold_monad.
  rewrite Hfile. apply String.eqb_neq in Hname. rewrite Hname, Hext. simpl.
  rewrite Hsvc, Hfresh, Hsave. simpl.
  rewrite lookup_insert_eq. simpl.
  rewrite insert_insert_eq, insert_empty. reflexivity.
Qed.

Lemma cleanup_removes (d name : string) (data : FileData) (w : World) :
  fs w !! d = Some {[name := data]} →
  cleanup (d, name) d w = (inr (), set_fs (delete d (fs w)) w).
Proof.
  intros Hd. unfold cleanup, os_remove, os_rmdir. unfold_monad. simpl.
  rewrite Hd, lookup_singleton_eq. simpl.
  rewrite lookup_insert_eq, delete_singleton_eq. simpl.
  rewrite bool_decide_eq_true_2 by done.
  by rewrite delete_insert_eq.
Qed.

Lemma saved_world_cleanup (env : Env) (file : FileStorage) (w1 w3 : World) :
  fs w1 !! mkdtemp_name env = None →
  fs w3 = fs (saved_world env file w1) →
  cleanup (temp_path_of env file) (mkdtemp_name env) w3 = (inr (), set_fs (fs w1) w3).
Proof.
  intros Hfresh Hfs. unfold temp_path_of, os_path_join.
  rewrite (cleanup_removes _ _ (Blob (stream_length file))).
  - rewrite Hfs. simpl. by rewrite delete_insert_id.
  - rewrite Hfs. simpl. apply lookup_insert_eq.
Qed.

(** C8.  Once [upload_video] has saved the upload in its temporary
    directory, the handler returns a response and by then the temporary
    file and its directory are gone: the file system is the one in which the
    directory was created.  This holds for every outcome of the upload
    (request refused, a chunk failing, the attach failing, success). *)
Theorem upload_video_removes_temp_file (env : Env) (request : Request)
    (file : FileStorage) (w w1 : World) :
  reaches_save env request file w w1 →
  ∃ resp w',
    upload_video env request w = (inr resp, w')
    ∧ fs w' = fs w1
    ∧ fs w' !! mkdtemp_name env = None
    ∧ lookup_file (temp_path_of env file) (fs w') = None.
Proof.
  intros Hreach.
  rewrite (upload_video_reaches_save _ _ _ _ _ Hreach).
  destruct Hreach as (_ & _ & _ & _ & Hfresh & _).
  assert (∀ w', fs w' = fs w1 →
            fs w' !! mkdtemp_name env = None
            ∧ lookup_file (temp_path_of env file) (fs w') = None) as Hgone.
  { intros w' ->. split; [done |]. unfold lookup_file. simpl. by rewrite Hfresh. }
  unfold try_except, try_finally.
  pose proof (keeps_fs_upload_and_attach env
                (get_default (form request) "title" "Untitled Video")
                (get_default (form request) "description" "")
                (clean_tags (if truthy_opt (form request !! "tags")
                             then Str.split "," (get_default (form request) "tags" "")
                             else []))
                (get_default (form request) "category_id" "22")
                (get_default (form request) "privacy_status" "private")
                (form request !! "playlist_id")
                (temp_path_of env file) (saved_world env file w1)) as Hframe.
  fold (upload_job env request file) in Hframe.
  destruct (upload_job env request file (saved_world env file w1)) as [r w3].
  simpl in Hframe.
  rewrite (saved_world_cleanup env file w1 w3 Hfresh Hframe).
  destruct r as [e|resp].
  - destruct (upload_error_returns e (set_fs (fs w1) w3)) as (resp & w' & Herr).
    pose proof (keeps_fs_upload_error e (set_fs (fs w1) w3)) as Hfs.
    rewrite Herr in *. simpl in Hfs.
    exists resp, w'. split; [done |]. split; [done |]. by apply Hgone.
  - exists resp, (set_fs (fs w1) w3). split; [done |]. split; [done |]. by apply Hgone.
Qed.

Lemma upload_video_removes_temp_file_witness :
  let env := demo_env (inl (HttpError (Some "quotaExceeded") "<HttpError 403>"))
                      None [] (demo_chat "27") in
  let file := mkFile "VIDEO.MP4" 2048 in
  let request := demo_upload_request "VIDEO.MP4" 2048 {[ "title" := "Holiday" ]} in
  let w := demo_world "fresh" in
  ∃ resp w',
    upload_video env request w = (inr resp, w')
    ∧ fs w' = fs w
    ∧ fs w' !! mkdtemp_name env = None
    ∧ lookup_file (temp_path_of env file) (fs w') = None.
Proof.
  intros env file request w.
  apply (upload_video_removes_temp_file env request file w w).
  split; [reflexivity |].
  split; [discriminate |].
  split; [vm_compute; reflexivity |].
  split; [exists (mkService demo_credentials); vm_compute; reflexivity |].
  split; [vm_compute; reflexivity | reflexivity].
Defined.

Lemma next_chunk_loop_returns (chunks : list (option Z)) (st : option Z)
    (video : VideoResource) (w : World) :
  ∃ w', next_chunk_loop chunks (inr (st, video)) w = (inr video, w').
Proof.
  revert w. induction chunks as [|c rest IH]; intros w; simpl; unfold_monad; simpl.
  - destruct st; simpl; by eauto.
  - destruct c; simpl; apply IH.
Qed.

(** The upload went through and the attach was refused by the host with an
    [HttpError]: the job still yields the success body, and the refusal is
    logged as a warning. *)
Lemma upload_job_attach_refused (env : Env) (request : Request) (file : FileStorage)
    (video : VideoResource) (pid : string) (content : option string) (text : string)
    (w : World) :
  is_Some (lookup_file (temp_path_of env file) (fs w)) →
  upload_completes env video →
  form request !! "playlist_id" = Some pid →
  Str.truthy pid = true →
  playlist_insert_error env = Some (HttpError content text) →
  ∃ w',
    upload_job env request file w
    = (inr (upload_success (video_id video)
                           (get_default (form request) "title" "Untitled Video")), w')
    ∧ (WARNING, "Failed to add video to playlist: " +:+ text) ∈ log w'.
Proof.
  intros [data Hdata] (Hins & st & Hfinal) Hpid Htruthy Herr.
  unfold upload_job, upload_and_attach, MediaFileUpload, read_file, add_to_playlist.
  unfold_monad. rewrite Hdata. simpl. rewrite Hins, Hfinal. simpl.
  destruct (next_chunk_loop_returns (upload_chunks env) st video
              (add_call
                 (VideosInsert "snippet,status"
                    (mkVideoBody
                       (get_default (form request) "title" "Untitled Video")
                       (get_default (form request) "description" "")
                       (clean_tags (if truthy_opt (form request !! "tags")
                                    then Str.split "," (get_default (form request) "tags" "")
                                    else []))
                       (get_default (form request) "category_id" "22")
                       (get_default (form request) "privacy_status" "private")
                       true "youtube" true)
                    (temp_path_of env file))
                 (add_log INFO ("Starting upload for video: "
                                +:+ get_default (form request) "title" "Untitled Video") w)))
    as (w' & Hloop).
  rewrite Hloop. simpl. rewrite Hpid, Htruthy, Herr. simpl.
  eexists. split; [reflexivity |].
  simpl. apply elem_of_app. right. apply list_elem_of_singleton. reflexivity.
Qed.

(** C3, as the code has it.  When the request names a playlist, the
    resumable upload completes and the playlist insert then fails with an
    [HttpError] of the host, the failure is logged as a warning and
    swallowed: the handler answers HTTP 200 with the success body carrying
    [video_id] and [video_url]. *)
Theorem upload_video_swallows_attach_http_error (env : Env) (request : Request)
    (file : FileStorage) (w w1 : World) (video : VideoResource) (pid : string)
    (content : option string) (text : string) :
  reaches_save env request file w w1 →
  upload_completes env video →
  form request !! "playlist_id" = Some pid →
  Str.truthy pid = true →
  playlist_insert_error env = Some (HttpError content text) →
  ∃ resp w',
    upload_video env request w = (inr resp, w')
    ∧ status resp = 200
    ∧ dict_get "status" (body resp) = Some (JStr "success")
    ∧ dict_get "video_id" (body resp) = Some (JStr (video_id video))
    ∧ dict_get "video_url" (body resp)
      = Some (JStr ("https://www.youtube.com/watch?v=" +:+ video_id video))
    ∧ (WARNING, "Failed to add video to playlist: " +:+ text) ∈ log w'.
Proof.
  intros Hreach Hup Hpid Htruthy Herr.
  rewrite (upload_video_reaches_save _ _ _ _ _ Hreach).
  destruct Hreach as (_ & _ & _ & _ & Hfresh & _).
  destruct (upload_job_attach_refused env request file video pid content text
              (saved_world env file w1)) as (w3 & Hjob & Hlog); try done.
  { unfold lookup_file, temp_path_of. simpl.
    rewrite lookup_insert_eq. simpl. rewrite lookup_singleton_eq. by eexists. }
  pose proof (keeps_fs_upload_and_attach env
                (get_default (form request) "title" "Untitled Video")
                (get_default (form request) "description" "")
                (clean_tags (if truthy_opt (form request !! "tags")
                             then Str.split "," (get_default (form request) "tags" "")
                             else []))
                (get_default (form request) "category_id" "22")
                (get_default (form request) "privacy_status" "private")
                (form request !! "playlist_id")
                (temp_path_of env file) (saved_world env file w1)) as Hframe.
  fold (upload_job env request file) in Hframe. rewrite Hjob in Hframe.
  unfold try_except, try_finally. rewrite Hjob.
  rewrite (saved_world_cleanup env file w1 w3 Hfresh Hframe).
  do 2 eexists. repeat split; try reflexivity. exact Hlog.
Qed.

Lemma upload_video_swallows_attach_http_error_witness :
  let video := mkVideo "dQw4w9WgXcQ" in
  let env := demo_env (inr (Some 100, video))
                      (Some (HttpError (Some "playlistNotFound") "<HttpError 404>"))
                      [] (demo_chat "27") in
  let request := demo_upload_request "VIDEO.MP4" 2048 {[ "playlist_id" := "PL1" ]} in
  let w := demo_world "fresh" in
  ∃ resp w',
    upload_video env request w = (inr resp, w')
    ∧ status resp = 200
    ∧ dict_get "status" (body resp) = Some (JStr "success")
    ∧ dict_get "video_id" (body resp) = Some (JStr "dQw4w9WgXcQ")
    ∧ dict_get "video_url" (body resp)
      = Some (JStr "https://www.youtube.com/watch?v=dQw4w9WgXcQ")
    ∧ (WARNING, "Failed to add video to playlist: <HttpError 404>") ∈ log w'.
Proof.
  intros video env request w.
  apply (upload_video_swallows_attach_http_error env request (mkFile "VIDEO.MP4" 2048)
           w w video "PL1" (Some "playlistNotFound") "<HttpError 404>").
  - split; [reflexivity |].
    split; [discriminate |].
    split; [vm_compute; reflexivity |].
    split; [exists (mkService demo_credentials); vm_compute; reflexivity |].
    split; [vm_compute; reflexivity | reflexivity].
  - split; [reflexivity | by exists (Some 100)].
  - vm_compute. reflexivity.
  - reflexivity.
  - reflexivity.
Defined.

(** C3 as worded covers every failure of the insert call.  When the call
    fails with something other than an [HttpError] (here a time-out), the
    exception leaves the inner [try] and the handler answers HTTP 500,
    although the video was uploaded. *)
Lemma upload_video_attach_timeout_is_an_error :
  ¬ (∀ (env : Env) (request : Request) (file : FileStorage) (w w1 : World)
       (video : VideoResource) (pid : string) (e : exn),
       reaches_save env request file w w1 →
       upload_completes env video →
       form request !! "playlist_id" = Some pid →
       Str.truthy pid = true →
       playlist_insert_error env = Some e →
       ∃ resp w',
         upload_video env request w = (inr resp, w')
         ∧ status resp = 200
         ∧ dict_get "video_id" (body resp) = Some (JStr (video_id video))).
Proof.
  intros claim.
  destruct (claim (demo_env (inr (Some 100, mkVideo "dQw4w9WgXcQ"))
                            (Some (Exception "timed out")) [] (demo_chat "27"))
                  (demo_upload_request "VIDEO.MP4" 2048 {[ "playlist_id" := "PL1" ]})
                  (mkFile "VIDEO.MP4" 2048)
                  (demo_world "fresh") (demo_world "fresh")
                  (mkVideo "dQw4w9WgXcQ") "PL1" (Exception "timed out"))
    as (resp & w' & Hrun & Hstatus & _).
  - split; [reflexivity |].
    split; [discriminate |].
    split; [vm_compute; reflexivity |].
    split; [exists (mkService demo_credentials); vm_compute; reflexivity |].
    split; [vm_compute; reflexivity | reflexivity].
  - split; [reflexivity | by exists (Some 100)].
  - vm_compute. reflexivity.
  - reflexivity.
  - reflexivity.
  - vm_compute in Hrun. inversion Hrun; subst. discriminate Hstatus.
Qed.


(* ===================================================================== *)
(** ** What tag parsing guarantees *)
(* ===================================================================== *)

Lemma rstrip_no_trailing_space (s : string) : ends_with_space (Str.rstrip s) = false.
Proof.
  induction s as [|c r IH]; [done |].
  simpl. destruct (Str.rstrip r) as [|d r'] eqn:Hr.
  - destruct (Str.isspace c) eqn:Hc; simpl; [done | exact Hc].
  - exact IH.
Qed.

Lemma lstrip_no_leading_space (s : string) : starts_with_space (Str.lstrip s) = false.
Proof.
  induction s as [|c r IH]; [done |].
  simpl. destruct (Str.isspace c) eqn:Hc; [exact IH | simpl; exact Hc].
Qed.

Lemma lstrip_keeps_end (s : string) :
  ends_with_space s = false → ends_with_space (Str.lstrip s) = false.
Proof.
  induction s as [|c r IH]; [done |].
  intros H. simpl. destruct (Str.isspace c); [| exact H].
  destruct r as [|d r']; [done |]. apply IH. exact H.
Qed.

Lemma strip_edges (s : string) :
  starts_with_space (Str.strip s) = false ∧ ends_with_space (Str.strip s) = false.
Proof.
  unfold Str.strip. split.
  - apply lstrip_no_leading_space.
  - apply lstrip_keeps_end, rstrip_no_trailing_space.
Qed.

Lemma lstrip_contains (c : ascii) (s : string) :
  Str.contains c s = false → Str.contains c (Str.lstrip s) = false.
Proof.
  induction s as [|d r IH]; [done |].
  simpl. destruct (Str.isspace d); [| done].
  destruct (Ascii.eqb d c); [done | exact IH].
Qed.

Lemma rstrip_contains (c : ascii) (s : string) :
  Str.contains c s = false → Str.contains c (Str.rstrip s) = false.
Proof.
  induction s as [|d r IH]; [done |].
  simpl. destruct (Ascii.eqb d c) eqn:Hd; [done |]. intros Hr.
  specialize (IH Hr).
  destruct (Str.rstrip r) as [|e r'].
  - destruct (Str.isspace d); simpl; [done | by rewrite Hd].
  - simpl. rewrite Hd. exact IH.
Qed.

Lemma strip_contains (c : ascii) (s : string) :
  Str.contains c s = false → Str.contains c (Str.strip s) = false.
Proof. intros H. unfold Str.strip. by apply lstrip_contains, rstrip_contains. Qed.

Lemma split_pieces (sep : ascii) (s : string) :
  Forall (λ t, Str.contains sep t = false) (Str.split sep s).
Proof.
  induction s as [|c r IH]; simpl; [by repeat constructor |].
  destruct (Ascii.eqb c sep) eqn:Hc; [by constructor |].
  destruct (Str.split sep r) as [|h t]; [repeat constructor; simpl; by rewrite Hc |].
  inversion IH as [|? ? Hh Ht]; subst.
  constructor; [simpl; by rewrite Hc | exact Ht].
Qed.

Lemma clean_tags_clean (l : list string) :
  Forall (λ t, Str.contains "," t = false) l →
  Forall (λ t, clean_tag t = true) (clean_tags l).
Proof.
  unfold clean_tags. induction 1 as [|t l Ht _ IH]; [constructor |].
  destruct (Str.truthy (Str.strip t)) eqn:Htruthy.
  - rewrite filter_cons_True by (by rewrite Htruthy).
    simpl. constructor; [| exact IH].
    destruct (strip_edges t) as [Hs He].
    unfold clean_tag. by rewrite Htruthy, (strip_contains _ _ Ht), Hs, He.
  - rewrite filter_cons_False; [exact IH |]. rewrite Htruthy. intros [].
Qed.

Lemma parse_tags_of_clean (tags : list string) :
  Forall (λ t, clean_tag t = true) tags → parse_tags (Str.join "," tags) = tags.
Proof.
  intros Hall. unfold parse_tags.
  destruct (join_clean_edges tags Hall) as [Hs He].
  rewrite (strip_id _ Hs He).
  destruct tags as [|t rest]; [done |].
  rewrite split_join; [by apply clean_tags_id | done |].
  eapply Forall_impl; [exact Hall |].
  intros x Hx. by apply clean_tag_inv in Hx as (_ & ? & _).
Qed.

(** X1.  Whatever text the language model returns, every tag that
    [parse_tags] (metadata.py, lines 106-107) extracts from it is clean:
    not empty, without a comma, without white space at either end. *)
Theorem parse_tags_yields_clean_tags (content : string) :
  Forall (λ t, clean_tag t = true) (parse_tags content).
Proof.
  unfold parse_tags.
  pose proof (split_pieces "," (Str.strip content)) as Hpieces.
  revert Hpieces. generalize (Str.split "," (Str.strip content)).
  intros pieces Hpieces. by apply clean_tags_clean.
Qed.

(** X2.  Parsing is idempotent through the comma-separated form: joining
    the parsed tags with commas and parsing again changes nothing. *)
Theorem parse_tags_idempotent (content : string) :
  parse_tags (Str.join "," (parse_tags content)) = parse_tags content.
Proof.
  assert (Forall (λ t, clean_tag t = true) (parse_tags content)) as Hclean.
  { unfold parse_tags. apply clean_tags_clean, split_pieces. }
  revert Hclean. generalize (parse_tags content). intros tags Hclean.
  by apply parse_tags_of_clean.
Qed.

(** X3.  [generate_keywords], given a text, answers HTTP 200 with the
    keywords parsed from the completion, and each of them is clean. *)
Theorem generate_keywords_clean (svc : Services) (request : Request)
    (data : gmap string string) (content : string) (w : World) :
  get_json request = Some data →
  Str.truthy (get_default data "text" "") = true →
  completion svc Keywords (get_default data "text" "") 300 5 = inr content →
  generate_keywords svc request w
  = (inr (jsonify [("keywords", JList (JStr <$> parse_tags content));
                   ("status", JStr "success")]), w)
  ∧ Forall (λ t, clean_tag t = true) (parse_tags content).
Proof.
  intros Hjson Htext Hans. split.
  - unfold generate_keywords, data_get. unfold_monad.
    rewrite Hjson. simpl. rewrite Htext. simpl. rewrite Hans. reflexivity.
  - unfold parse_tags. apply clean_tags_clean, split_pieces.
Qed.

Lemma generate_keywords_clean_witness :
  let request := mkRequest None ∅ (Some {[ "text" := "a talk about Rocq" ]}) in
  generate_keywords demo_services request (demo_world "fresh")
  = (inr (jsonify [("keywords", JList (JStr <$> parse_tags " a, b ,,c "));
                   ("status", JStr "success")]), demo_world "fresh")
  ∧ Forall (λ t, clean_tag t = true) (parse_tags " a, b ,,c ").
Proof.
  intros request.
  apply (generate_keywords_clean demo_services request
           {[ "text" := "a talk about Rocq" ]} " a, b ,,c " (demo_world "fresh"));
    reflexivity.
Defined.

(* ===================================================================== *)
(** ** What [generate_metadata] can answer *)
(* ===================================================================== *)

Lemma parse_category_valid (content : string) :
  parse_category content ∈ valid_categories.
Proof.
  unfold parse_category. case_bool_decide as H; [exact H |].
  apply list_elem_of_In. simpl. tauto.
Qed.

(** Every run of [generate_metadata] ends in one of two shapes: the full
    success body, or an error body without any of the four fields. *)
Lemma generate_metadata_outcomes (env : Env) (request : Request) (w : World) :
  ∃ resp w',
    generate_metadata env request w = (inr resp, w')
    ∧ ((∃ title description tags category,
          resp = jsonify [("title", JStr title);
                          ("description", JStr description);
                          ("tags", JList (JStr <$> parse_tags tags));
                          ("category_id", JStr (parse_category category));
                          ("status", JStr "success")])
       ∨ ((status resp = 400 ∨ status resp = 500)
          ∧ (∃ message, dict_get "error" (body resp) = Some (JStr message))
          ∧ dict_get "title" (body resp) = None
          ∧ dict_get "description" (body resp) = None
          ∧ dict_get "tags" (body resp) = None
          ∧ dict_get "category_id" (body resp) = None)).
Proof.
  unfold generate_metadata, chat. unfold_monad.
  destruct (get_json request) as [data|];
    [| do 2 eexists; split; [reflexivity |]; right; simpl; by eauto 10].
  case_bool_decide;
    [do 2 eexists; split; [reflexivity |]; right; simpl; by eauto 10 |].
  destruct (negb (Str.truthy (get_default data "text" ""))
            && negb (Str.truthy (get_default data "topic" "")));
    [do 2 eexists; split; [reflexivity |]; right; simpl; by eauto 10 |].
  set (ctx := _ +:+ "Style: " +:+ _).
  destruct (chat_completion env (mkChat "gpt-4o-mini" TitlePrompt ctx 100 7)) as [e|t];
    simpl; [do 2 eexists; split; [reflexivity |]; right; simpl; by eauto 10 |].
  destruct (chat_completion env (mkChat "gpt-4o-mini" DescriptionPrompt ctx 800 7)) as [e|d];
    simpl; [do 2 eexists; split; [reflexivity |]; right; simpl; by eauto 10 |].
  destruct (chat_completion env (mkChat "gpt-4o-mini" TagsPrompt ctx 200 5)) as [e|g];
    simpl; [do 2 eexists; split; [reflexivity |]; right; simpl; by eauto 10 |].
  destruct (chat_completion env (mkChat "gpt-4o-mini" CategoryPrompt ctx 10 3)) as [e|c];
    simpl; [do 2 eexists; split; [reflexivity |]; right; simpl; by eauto 10 |].
  do 2 eexists. split; [reflexivity |]. left. by eauto 10.
Qed.

(** X4.  [generate_metadata] never returns a partial result: it answers
    either HTTP 200 with title, description, tags and category all present,
    or HTTP 400 or 500 with an error message and none of the four. *)
Theorem generate_metadata_all_or_nothing (env : Env) (request : Request) (w : World) :
  ∃ resp w',
    generate_metadata env request w = (inr resp, w')
    ∧ ((status resp = 200
        ∧ is_Some (dict_get "title" (body resp))
        ∧ is_Some (dict_get "description" (body resp))
        ∧ is_Some (dict_get "tags" (body resp))
        ∧ is_Some (dict_get "category_id" (body resp)))
       ∨ ((status resp = 400 ∨ status resp = 500)
          ∧ is_Some (dict_get "error" (body resp))
          ∧ dict_get "title" (body resp) = None
          ∧ dict_get "description" (body resp) = None
          ∧ dict_get "tags" (body resp) = None
          ∧ dict_get "category_id" (body resp) = None)).
Proof.
  destruct (generate_metadata_outcomes env request w)
    as (resp & w' & Hrun & [(t & d & g & c & ->) | (Hst & (m & Hm) & Hrest)]).
  - eexists _, w'. split; [exact Hrun |]. left. simpl. by eauto 10.
  - exists resp, w'. split; [exact Hrun |]. right.
    split; [exact Hst |]. split; [by eexists | exact Hrest].
Qed.

(** X5.  Whatever the language model answers, the [category_id] of a
    response of [generate_metadata] is one of the fourteen permitted
    codes. *)
Theorem generate_metadata_category_is_permitted (env : Env) (request : Request)
    (w : World) :
  ∃ resp w',
    generate_metadata env request w = (inr resp, w')
    ∧ ∀ v, dict_get "category_id" (body resp) = Some v →
           ∃ c, v = JStr c ∧ c ∈ valid_categories.
Proof.
  destruct (generate_metadata_outcomes env request w)
    as (resp & w' & Hrun & [(t & d & g & c & ->) | (_ & _ & _ & _ & _ & Hnone)]).
  - eexists _, w'. split; [exact Hrun |]. simpl. intros v [= <-].
    eexists. split; [reflexivity | apply parse_category_valid].
  - exists resp, w'. split; [exact Hrun |]. intros v Hv. by rewrite Hnone in Hv.
Qed.

(** X6.  The single-field endpoints do not guard against a request whose
    JSON body is [None]: reading [data.get] raises and they answer HTTP 500,
    where [generate_metadata] answers HTTP 400 to the same request. *)
Theorem single_field_endpoints_missing_body (env : Env) (svc : Services)
    (request : Request) (w : World) :
  get_json request = None →
  let crash := with_status
                 (jsonify [("error", JStr "'NoneType' object has no attribute 'get'");
                           ("status", JStr "error")]) 500 in
  (generate_title_only svc request w).1 = inr crash
  ∧ (generate_description_only svc request w).1 = inr crash
  ∧ (generate_keywords svc request w).1 = inr crash
  ∧ generate_metadata env request w
    = (inr (with_status (jsonify [("error", JStr "No data provided")]) 400), w).
Proof.
  intros Hjson crash.
  unfold generate_title_only, generate_description_only, generate_keywords,
    generate_metadata, data_get, metadata_error.
  unfold_monad. rewrite Hjson. simpl. done.
Qed.

Lemma single_field_endpoints_missing_body_witness :
  let env := demo_env (inl (Exception "unused")) None [] (demo_chat "27") in
  let request := mkRequest None ∅ None in
  (generate_title_only demo_services request (demo_world "fresh")).1
  = inr (with_status
           (jsonify [("error", JStr "'NoneType' object has no attribute 'get'");
                     ("status", JStr "error")]) 500)
  ∧ generate_metadata env request (demo_world "fresh")
    = (inr (with_status (jsonify [("error", JStr "No data provided")]) 400),
       demo_world "fresh").
Proof.
  intros env request.
  destruct (single_field_endpoints_missing_body env demo_services request
              (demo_world "fresh") eq_refl) as (H1 & _ & _ & H4).
  split; [exact H1 | exact H4].
Defined.

(* ===================================================================== *)
(** ** Credentials: the two factories, refresh, status, logout *)
(* ===================================================================== *)

(** X7.  The two copies of [get_youtube_service] (youtube_service.py and
    app.py) agree: same result, same file system, same session, same host
    calls.  They differ only in what they log. *)
Theorem get_youtube_service_versions_agree (env : Env) (w : World) :
  (YoutubeService.get_youtube_service env w).1 = (App.get_youtube_service env w).1
  ∧ fs (YoutubeService.get_youtube_service env w).2 = fs (App.get_youtube_service env w).2
  ∧ session (YoutubeService.get_youtube_service env w).2
    = session (App.get_youtube_service env w).2
  ∧ host_calls (YoutubeService.get_youtube_service env w).2
    = host_calls (App.get_youtube_service env w).2.
Proof.
  unfold_service.
  destruct (lookup_file (TOKEN_FILE (config env)) (fs w)) as [data|] eqn:Hf;
    simpl; rewrite ?Hf; simpl; [| done].
  destruct (from_authorized_user_file env data) as [e|c]; simpl; [done |].
  destruct (valid (now env) c); simpl.
  { destruct (build env c); simpl; done. }
  destruct (expired (now env) c && truthy_opt (refresh_token c)); simpl; [| done].
  destruct (refresh env c) as [e|c']; simpl; [done |].
  destruct (lookup_file_dir _ _ _ Hf) as (d & -> & _). simpl.
  destruct (build env c'); simpl; done.
Qed.

(** X8.  A valid stored credential is used as it is: the handle is built
    from it and nothing changes, no refresh, no write, no log line. *)
Theorem get_youtube_service_valid_untouched (env : Env) (w : World)
    (data : FileData) (c : Credentials) (yt : Service) :
  token_file_holds env w data →
  from_authorized_user_file env data = inr c →
  valid (now env) c = true →
  build env c = inr yt →
  YoutubeService.get_youtube_service env w = (inr (Some yt), w).
Proof.
  intros Hf Hp Hv Hb. unfold token_file_holds in Hf. unfold_service.
  rewrite Hf. simpl. rewrite Hf. simpl. rewrite Hp. simpl.
  rewrite Hv. simpl. rewrite Hb. reflexivity.
Qed.

Lemma get_youtube_service_valid_untouched_witness :
  let env := demo_env (inl (Exception "unused")) None [] (demo_chat "27") in
  YoutubeService.get_youtube_service env (demo_world "fresh")
  = (inr (Some (mkService demo_credentials)), demo_world "fresh").
Proof.
  intros env.
  apply (get_youtube_service_valid_untouched env (demo_world "fresh")
           (Text "fresh") demo_credentials (mkService demo_credentials));
    reflexivity.
Defined.

Lemma lookup_file_insert_other (p q : path) (f : gmap string (gmap string FileData))
    (d : gmap string FileData) (x : FileData) :
  f !! q.1 = Some d → p ≠ q →
  lookup_file p (<[q.1 := <[q.2 := x]> d]> f) = lookup_file p f.
Proof.
  intros Hd Hne. unfold lookup_file.
  destruct (decide (p.1 = q.1)) as [Heq|Hdir].
  - rewrite Heq, lookup_insert_eq, Hd. simpl.
    apply lookup_insert_ne. intros Hn. apply Hne.
    destruct p, q; simpl in *; congruence.
  - by rewrite lookup_insert_ne.
Qed.

(** X9.  When the stored credential is expired and has a refresh token and
    the refresh succeeds, the refreshed credential is what the handle is
    built from and what the token file holds afterwards; no other file and
    nothing in the session changes. *)
Theorem get_youtube_service_persists_refresh (env : Env) (w : World)
    (data : FileData) (c c' : Credentials) (yt : Service) :
  token_file_holds env w data →
  from_authorized_user_file env data = inr c →
  expired (now env) c = true →
  truthy_opt (refresh_token c) = true →
  refresh env c = inr c' →
  build env c' = inr yt →
  ∃ w',
    YoutubeService.get_youtube_service env w = (inr (Some yt), w')
    ∧ token_file_holds env w' (Text (to_json env c'))
    ∧ (∀ p, p ≠ TOKEN_FILE (config env) → lookup_file p (fs w') = lookup_file p (fs w))
    ∧ session w' = session w.
Proof.
  intros Hf Hp Hexp Hrt Hr Hb. unfold token_file_holds in *.
  destruct (lookup_file_dir _ _ _ Hf) as (d & Hd & _).
  unfold_service.
  rewrite Hf. simpl. rewrite Hf. simpl. rewrite Hp. simpl.
  rewrite (expired_not_valid _ _ Hexp), Hexp, Hrt. simpl.
  rewrite Hr. simpl. rewrite Hd. simpl. rewrite Hb. simpl.
  eexists. split; [reflexivity |]. simpl. split; [| split; [| reflexivity]].
  - unfold lookup_file. rewrite lookup_insert_eq. simpl. apply lookup_insert_eq.
  - intros p Hne. by apply lookup_file_insert_other.
Qed.

Lemma get_youtube_service_persists_refresh_witness :
  let env := demo_env (inl (Exception "unused")) None [] (demo_chat "27") in
  let stale := mkCredentials (Some "ya29.old") (Some "1//refresh") (Some 500) in
  let env' := mkEnv (config env) (now env)
                    (λ data, match data with
                             | Text "stale" => inr stale
                             | other => from_authorized_user_file env other
                             end)
                    (to_json env) (refresh env) (build env) (secure_filename env)
                    (extensions_order env) (mkdtemp_name env) (save_error env) (videos_insert_error env)
                    (upload_chunks env) (upload_final env) (playlist_insert_error env)
                    (playlist_pages env) (chat_completion env) in
  ∃ w',
    YoutubeService.get_youtube_service env' (demo_world "stale")
    = (inr (Some (mkService demo_credentials)), w')
    ∧ token_file_holds env' w' (Text "fresh").
Proof.
  intros env stale env'.
  destruct (get_youtube_service_persists_refresh env' (demo_world "stale")
              (Text "stale") stale demo_credentials (mkService demo_credentials))
    as (w' & Hrun & Hfile & _); try reflexivity.
  exists w'. split; [exact Hrun | exact Hfile].
Defined.

(** What [auth_status] answers, case by case. *)
Lemma auth_status_cases (env : Env) (svc : Services) (w : World) :
  match lookup_file (TOKEN_FILE (config env)) (fs w) with
  | None =>
      auth_status env svc w
      = (inr (jsonify [("authenticated", JBool false);
                       ("message", JStr "No token file found")]), w)
  | Some data =>
      match from_authorized_user_file env data with
      | inl e =>
          auth_status env svc w
          = (inr (with_status
                    (jsonify [("authenticated", JBool false);
                              ("message", JStr "Error checking authentication")]) 500),
             add_log ERROR ("Error checking auth status: " +:+ str_exn e) w)
      | inr c =>
          if valid (now env) c then
            auth_status env svc w
            = (inr (jsonify [("authenticated", JBool true);
                             ("message", JStr "User is authenticated");
                             ("expires_at",
                              match expiry c with
                              | Some e => JStr (isoformat svc e)
                              | None => JNull
                              end)]), w)
          else
            auth_status env svc w
            = (inr (jsonify [("authenticated", JBool false);
                             ("message", JStr "Invalid or expired credentials")]), w)
      end
  end.
Proof.
  unfold auth_status, os_path_exists, load_authorized_user_file, read_file.
  unfold_monad.
  destruct (lookup_file (TOKEN_FILE (config env)) (fs w)) as [data|] eqn:Hf;
    simpl; rewrite ?Hf; simpl; [| done].
  destruct (from_authorized_user_file env data) as [e|c]; simpl; [done |].
  destruct (valid (now env) c); simpl; done.
Qed.

(** X10.  [auth_status] reports authenticated=true exactly when the token
    file exists, loads, and holds a valid credential; it answers HTTP 500
    exactly when the file exists and the loader rejects it, and HTTP 200
    otherwise.  It never changes the file system or the session. *)
Theorem auth_status_characterisation (env : Env) (svc : Services) (w : World) :
  ∃ resp w',
    auth_status env svc w = (inr resp, w')
    ∧ fs w' = fs w ∧ session w' = session w
    ∧ (dict_get "authenticated" (body resp) = Some (JBool true)
       ↔ ∃ data c, token_file_holds env w data
                   ∧ from_authorized_user_file env data = inr c
                   ∧ valid (now env) c = true)
    ∧ (status resp = 500
       ↔ ∃ data e, token_file_holds env w data
                   ∧ from_authorized_user_file env data = inl e)
    ∧ (status resp = 200 ∨ status resp = 500).
Proof.
  pose proof (auth_status_cases env svc w) as H. unfold token_file_holds.
  destruct (lookup_file (TOKEN_FILE (config env)) (fs w)) as [data|] eqn:Hf.
  - destruct (from_authorized_user_file env data) as [e|c] eqn:Hp.
    + do 2 eexists. split; [exact H |]. simpl. repeat split; try done.
      * intros (data' & c & [= <-] & Hc & _). congruence.
      * intros _. by eauto.
      * by right.
    + destruct (valid (now env) c) eqn:Hv.
      * do 2 eexists. split; [exact H |]. simpl. repeat split; try done.
        -- intros _. by eauto.
        -- intros (data' & e & [= <-] & He). congruence.
        -- by left.
      * do 2 eexists. split; [exact H |]. simpl. repeat split; try done.
        -- intros (data' & c' & [= <-] & Hc & Hv'). congruence.
        -- intros (data' & e & [= <-] & He). congruence.
        -- by left.
  - do 2 eexists. split; [exact H |]. simpl. repeat split; try done.
    + intros (data' & c & Hd & _). congruence.
    + intros (data' & e & Hd & _). congruence.
    + by left.
Qed.

(** X11.  [auth_status] does not refresh.  For a stored credential that is
    expired but refreshable it reports authenticated=false and leaves the
    token file alone, while [get_youtube_service] refreshes it and returns
    a handle. *)
Theorem auth_status_does_not_refresh (env : Env) (svc : Services) (w : World)
    (data : FileData) (c c' : Credentials) (yt : Service) :
  token_file_holds env w data →
  from_authorized_user_file env data = inr c →
  expired (now env) c = true →
  truthy_opt (refresh_token c) = true →
  refresh env c = inr c' →
  build env c' = inr yt →
  auth_status env svc w
  = (inr (jsonify [("authenticated", JBool false);
                   ("message", JStr "Invalid or expired credentials")]), w)
  ∧ (YoutubeService.get_youtube_service env w).1 = inr (Some yt).
Proof.
  intros Hf Hp Hexp Hrt Hr Hb. split.
  - pose proof (auth_status_cases env svc w) as H.
    unfold token_file_holds in Hf.
    by rewrite Hf, Hp, (expired_not_valid _ _ Hexp) in H.
  - unfold token_file_holds in Hf.
    destruct (lookup_file_dir _ _ _ Hf) as (d & Hd & _).
    unfold_service.
    rewrite Hf. simpl. rewrite Hf. simpl. rewrite Hp. simpl.
    rewrite (expired_not_valid _ _ Hexp), Hexp, Hrt. simpl.
    rewrite Hr. simpl. rewrite Hd. simpl. rewrite Hb. reflexivity.
Qed.

Lemma auth_status_does_not_refresh_witness :
  let env := demo_env (inl (Exception "unused")) None [] (demo_chat "27") in
  let stale := mkCredentials (Some "ya29.old") (Some "1//refresh") (Some 500) in
  let env' := mkEnv (config env) (now env)
                    (λ data, match data with
                             | Text "stale" => inr stale
                             | other => from_authorized_user_file env other
                             end)
                    (to_json env) (refresh env) (build env) (secure_filename env)
                    (extensions_order env) (mkdtemp_name env) (save_error env) (videos_insert_error env)
                    (upload_chunks env) (upload_final env) (playlist_insert_error env)
                    (playlist_pages env) (chat_completion env) in
  auth_status env' demo_services (demo_world "stale")
  = (inr (jsonify [("authenticated", JBool false);
                   ("message", JStr "Invalid or expired credentials")]),
     demo_world "stale")
  ∧ (YoutubeService.get_youtube_service env' (demo_world "stale")).1
    = inr (Some (mkService demo_credentials)).
Proof.
  intros env stale env'.
  apply (auth_status_does_not_refresh env' demo_services (demo_world "stale")
           (Text "stale") stale demo_credentials (mkService demo_credentials));
    reflexivity.
Defined.

(* ===================================================================== *)
(** ** Without a credential *)
(* ===================================================================== *)











(* ===================================================================== *)
(** ** The OAuth flow ([login], [callback]) *)
(* ===================================================================== *)

(** X14.  [callback] refuses a request whose session carries no
    [oauth_state]: HTTP 400, and nothing changes (no token is fetched, no
    file written). *)
Theorem callback_requires_state (env : Env) (svc : Services) (url : string) (w : World) :
  session w !! "oauth_state" = None →
  callback env svc url w
  = (inr (Json (with_status (jsonify [("error", JStr "Invalid session state")]) 400)), w).
Proof.
  intros Hstate. unfold callback, session_get. unfold_monad.
  rewrite Hstate. reflexivity.
Qed.

Lemma callback_requires_state_witness :
  let env := demo_env (inl (Exception "unused")) None [] (demo_chat "27") in
  callback env demo_services "https://app/api/auth/callback?code=4/abc" (demo_world "fresh")
  = (inr (Json (with_status (jsonify [("error", JStr "Invalid session state")]) 400)),
     demo_world "fresh").
Proof.
  intros env.
  apply (callback_requires_state env demo_services _ (demo_world "fresh")).
  reflexivity.
Defined.

(** X15.  When the client secrets cannot be read or the token exchange
    fails, [callback] answers the failure page with HTTP 500 and only adds
    a log line: the token file is not touched and the [oauth_state] stays
    in the session. *)
Theorem callback_failure_keeps_state (env : Env) (svc : Services) (url state : string)
    (e : exn) (w : World) :
  session w !! "oauth_state" = Some state →
  client_secrets_error svc = Some e
  ∨ (client_secrets_error svc = None ∧ fetch_token svc state url = inl e) →
  callback env svc url w
  = (inr (Html (AuthenticationFailed (str_exn e)) 500),
     add_log ERROR ("Error in OAuth callback: " +:+ str_exn e) w).
Proof.
  intros Hstate Hfail. unfold callback, session_get. unfold_monad.
  rewrite Hstate.
  destruct Hfail as [-> | [-> ->]]; reflexivity.
Qed.

Lemma callback_failure_keeps_state_witness :
  let env := demo_env (inl (Exception "unused")) None [] (demo_chat "27") in
  let w := set_session {[ "oauth_state" := "forged" ]} (demo_world "fresh") in
  callback env demo_services "https://app/api/auth/callback?code=4/abc" w
  = (inr (Html (AuthenticationFailed "mismatching_state") 500),
     add_log ERROR "Error in OAuth callback: mismatching_state" w).
Proof.
  intros env w.
  apply (callback_failure_keeps_state env demo_services _ "forged"
           (Exception "mismatching_state") w).
  - reflexivity.
  - right. split; reflexivity.
Defined.

(** X16.  [login] followed by [callback]: [login] stores the state, and
    when the token exchange for that state succeeds, [callback] answers the
    success page, the token file holds the serialised credential, the
    [oauth_state] is gone from the session and the rest of the session is
    kept.  If moreover the loader reads back what was written and the
    credential is valid, [get_youtube_service] then returns a handle for it
    without changing anything. *)
Theorem login_then_callback (env : Env) (svc : Services) (url : string)
    (c : Credentials) (d : gmap string FileData) (w : World) :
  client_secrets_error svc = None →
  fetch_token svc (authorization_url svc).2 url = inr c →
  fs w !! (TOKEN_FILE (config env)).1 = Some d →
  ∃ w1 w2,
    login svc w
    = (inr (jsonify [("auth_url", JStr (authorization_url svc).1);
                     ("state", JStr (authorization_url svc).2);
                     ("status", JStr "success")]), w1)
    ∧ session w1 !! "oauth_state" = Some (authorization_url svc).2
    ∧ callback env svc url w1 = (inr (Html AuthenticationSuccessful 200), w2)
    ∧ token_file_holds env w2 (Text (to_json env c))
    ∧ session w2 !! "oauth_state" = None
    ∧ (∀ key, key ≠ "oauth_state" → session w2 !! key = session w !! key)
    ∧ (from_authorized_user_file env (Text (to_json env c)) = inr c →
       valid (now env) c = true →
       ∀ yt, build env c = inr yt →
             YoutubeService.get_youtube_service env w2 = (inr (Some yt), w2)).
Proof.
  intros Hsecrets Hfetch Hdir.
  unfold login, callback, session_set, session_get, session_pop, write_file.
  unfold_monad. rewrite Hsecrets.
  destruct (authorization_url svc) as [auth_url state] eqn:Hurl. simpl in *.
  do 2 eexists. split; [reflexivity |]. simpl.
  split; [apply lookup_insert_eq |].
  rewrite lookup_insert_eq. simpl. rewrite Hfetch. simpl. rewrite Hdir. simpl.
  split; [reflexivity |]. simpl.
  assert (lookup_file (TOKEN_FILE (config env))
            (<[(TOKEN_FILE (config env)).1 :=
                 <[(TOKEN_FILE (config env)).2 := Text (to_json env c)]> d]> (fs w))
          = Some (Text (to_json env c))) as Hfile.
  { unfold lookup_file. rewrite lookup_insert_eq. simpl. apply lookup_insert_eq. }
  split; [exact Hfile |].
  split; [apply lookup_delete_eq |].
  split.
  - intros key Hkey. rewrite lookup_delete_ne by done. by rewrite lookup_insert_ne.
  - intros Hloader Hvalid yt Hbuild. unfold_service.
    rewrite Hfile. simpl. rewrite Hfile. simpl.
    rewrite Hloader. simpl. rewrite Hvalid. simpl. rewrite Hbuild. reflexivity.
Qed.

Lemma login_then_callback_witness :
  let env := demo_roundtrip_env demo_credentials in
  let url := "https://app/api/auth/callback?state=s3cr3t&code=4/abc" in
  ∃ w1 w2,
    session w1 !! "oauth_state" = Some "s3cr3t"
    ∧ callback env demo_services url w1 = (inr (Html AuthenticationSuccessful 200), w2)
    ∧ token_file_holds env w2 (Text "stored")
    ∧ YoutubeService.get_youtube_service env w2
      = (inr (Some (mkService demo_credentials)), w2).
Proof.
  intros env url.
  destruct (login_then_callback env demo_services url demo_credentials
              {[ "token.json" := Text "fresh" ]} (demo_world "fresh"))
    as (w1 & w2 & _ & Hstate & Hcb & Hfile & _ & _ & Hsvc).
  - reflexivity.
  - reflexivity.
  - vm_compute. reflexivity.
  - exists w1, w2. split; [exact Hstate |]. split; [exact Hcb |].
    split; [exact Hfile |].
    apply Hsvc; reflexivity.
Defined.

(* ===================================================================== *)
(** ** Playlists: creation, listing the videos, host errors *)
(* ===================================================================== *)

Lemma coerced_privacy_valid (p : string) :
  (if bool_decide (p ∈ valid_privacy) then p else "private") ∈ valid_privacy.
Proof.
  case_bool_decide as H; [exact H |]. apply list_elem_of_In. simpl. tauto.
Qed.

(** X17.  [create_playlist] never sends the host a privacy status other
    than private, public or unlisted: two hosts that agree on such requests
    cannot be told apart by it.  A request with any other
    [privacy_status] is handled exactly as the same request with
    'private'. *)
Theorem create_playlist_coerces_privacy (env : Env) (svc : Services)
    (request : Request) (w : World) :
  (∀ svc', (∀ b, pb_privacyStatus b ∈ valid_privacy →
                 playlists_insert svc b = playlists_insert svc' b) →
           create_playlist env svc request w = create_playlist env svc' request w)
  ∧ (∀ data p,
       get_json request = Some data →
       data !! "privacy_status" = Some p →
       p ∉ valid_privacy →
       create_playlist env svc request w
       = create_playlist env svc
           (mkRequest (files_video request) (form request)
                      (Some (<["privacy_status" := "private"]> data))) w).
Proof.
  split.
  - intros svc' Hagree. unfold create_playlist. unfold_monad.
    destruct (get_json request) as [data|]; [| done].
    case_bool_decide; [done |].
    destruct (negb (truthy_opt (data !! "title"))); [done |].
    destruct (YoutubeService.get_youtube_service env w) as [[e|[yt|]] w1]; [done | | done].
    simpl. rewrite Hagree; [reflexivity |]. apply coerced_privacy_valid.
  - intros data p Hjson Hp Hbad. unfold create_playlist. unfold_monad.
    rewrite Hjson. simpl.
    rewrite (bool_decide_eq_false_2 (data = ∅))
      by (intros ->; by rewrite lookup_empty in Hp).
    rewrite (bool_decide_eq_false_2 (<["privacy_status" := "private"]> data = ∅))
      by apply insert_non_empty.
    unfold get_default.
    rewrite lookup_insert_eq, Hp. simpl.
    rewrite !lookup_insert_ne by done.
    simpl. rewrite (bool_decide_eq_false_2 _ Hbad).
    reflexivity.
Qed.

Lemma create_playlist_coerces_privacy_witness :
  let env := demo_env (inl (Exception "unused")) None [] (demo_chat "27") in
  let weird : gmap string string := {[ "title" := "Talks"; "privacy_status" := "weird" ]} in
  create_playlist env demo_services (mkRequest None ∅ (Some weird)) (demo_world "fresh")
  = create_playlist env demo_services
      (mkRequest None ∅ (Some (<["privacy_status" := "private"]> weird)))
      (demo_world "fresh").
Proof.
  intros env weird.
  apply (proj2 (create_playlist_coerces_privacy env demo_services
                  (mkRequest None ∅ (Some weird)) (demo_world "fresh"))
           weird "weird").
  - reflexivity.
  - vm_compute. reflexivity.
  - unfold valid_privacy. not_listed.
Defined.



Lemma list_playlist_videos_loop_follows (svc : Services) (playlist_id : string)
    (pages : list VideosPage) :
  ∀ (tok : option string) (fuel : nat) (acc : list json) (w : World),
    pages_from svc playlist_id (if truthy_opt tok then tok else None) pages →
    (length pages ≤ fuel)%nat →
    list_playlist_videos_loop fuel svc playlist_id tok acc w
    = (inr (Some (acc ++ (video_info <$> concat (videos_of <$> pages)))), w).
Proof.
  induction pages as [|page rest IH]; intros tok fuel acc w Hpages Hfuel.
  { inversion Hpages. }
  destruct fuel as [|fuel]; [simpl in Hfuel; lia |].
  simpl. unfold_monad.
  inversion Hpages as [t p Hget Hlast | t p ps Hget Hnext Hrest]; subst;
    rewrite Hget; simpl.
  - rewrite Hlast. simpl. by rewrite app_nil_r.
  - rewrite Hnext. rewrite (IH (vp_nextPageToken page) fuel).
    + rewrite fmap_app, app_assoc. reflexivity.
    + by rewrite Hnext.
    + simpl in Hfuel. lia.
Qed.

(** X19.  [list_playlist_videos] follows the page tokens of the host: when
    following them from the first request reaches a page without a token,
    the handler returns the summaries of the videos of all those pages, in
    order, with their count. *)
Theorem list_playlist_videos_follows_tokens (env : Env) (svc : Services)
    (playlist_id : string) (pages : list VideosPage) (fuel : nat)
    (yt : Service) (w w1 : World) :
  YoutubeService.get_youtube_service env w = (inr (Some yt), w1) →
  pages_from svc playlist_id None pages →
  (length pages ≤ fuel)%nat →
  let videos := video_info <$> concat (videos_of <$> pages) in
  list_playlist_videos fuel env svc playlist_id w
  = (inr (Some (jsonify [("videos", JList videos);
                         ("playlist_id", JStr playlist_id);
                         ("total_count", JInt (Z.of_nat (length videos)));
                         ("status", JStr "success")])), w1).
Proof.
  intros Hsvc Hpages Hfuel videos.
  unfold list_playlist_videos. unfold_monad. rewrite Hsvc.
  rewrite (list_playlist_videos_loop_follows svc playlist_id pages None fuel [] w1);
    [reflexivity | exact Hpages | exact Hfuel].
Qed.

Lemma list_playlist_videos_follows_tokens_witness :
  let env := demo_env (inl (Exception "unused")) None [] (demo_chat "27") in
  list_playlist_videos 2 env demo_services "PL1" (demo_world "fresh")
  = (inr (Some (jsonify
                  [("videos",
                    JList (video_info
                             <$> [mkVideoItem "vid1" "Intro" "" None 0 "2024-05-01T10:00:00Z";
                                  mkVideoItem "vid2" "Part two" "" None 1
                                              "2024-05-02T10:00:00Z"]));
                   ("playlist_id", JStr "PL1");
                   ("total_count", JInt 2);
                   ("status", JStr "success")])), demo_world "fresh").
Proof.
  intros env.
  apply (list_playlist_videos_follows_tokens env demo_services "PL1"
           [mkVideosPage
              (Some [mkVideoItem "vid1" "Intro" "" None 0 "2024-05-01T10:00:00Z"])
              (Some "P2");
            mkVideosPage
              (Some [mkVideoItem "vid2" "Part two" "" None 1 "2024-05-02T10:00:00Z"])
              None]
           2 (mkService demo_credentials) (demo_world "fresh") (demo_world "fresh")).
  - vm_compute. reflexivity.
  - apply pages_from_next; [reflexivity | reflexivity |].
    apply pages_from_last; reflexivity.
  - simpl. lia.
Defined.

Lemma list_playlist_videos_loop_endless (svc : Services) (playlist_id : string) :
  (∀ tok, ∃ page, playlist_items_list svc playlist_id tok = inr page
                  ∧ truthy_opt (vp_nextPageToken page) = true) →
  ∀ (fuel : nat) (tok : option string) (acc : list json) (w : World),
    list_playlist_videos_loop fuel svc playlist_id tok acc w = (inr None, w).
Proof.
  intros Hhost. induction fuel as [|fuel IH]; intros tok acc w; [done |].
  simpl. unfold_monad.
  destruct (Hhost (if truthy_opt tok then tok else None)) as (page & -> & Hnext).
  simpl. rewrite Hnext. apply IH.
Qed.

(** X20.  The paging loop of [list_playlist_videos] has no bound of its
    own: against a host whose every page carries a next-page token the
    handler does not return, however many requests it is allowed. *)
Theorem list_playlist_videos_unbounded (env : Env) (svc : Services)
    (playlist_id : string) (yt : Service) (w w1 : World) :
  YoutubeService.get_youtube_service env w = (inr (Some yt), w1) →
  (∀ tok, ∃ page, playlist_items_list svc playlist_id tok = inr page
                  ∧ truthy_opt (vp_nextPageToken page) = true) →
  ∀ fuel, list_playlist_videos fuel env svc playlist_id w = (inr None, w1).
Proof.
  intros Hsvc Hhost fuel.
  unfold list_playlist_videos. unfold_monad. rewrite Hsvc.
  by rewrite (list_playlist_videos_loop_endless svc playlist_id Hhost).
Qed.

Lemma list_playlist_videos_unbounded_witness :
  let env := demo_env (inl (Exception "unused")) None [] (demo_chat "27") in
  let svc := mkServices None ("", "") (λ _ _, inl (Exception "unused")) (λ _, "")
               (λ _, inl (Exception "unused"))
               (λ _ _, inr (mkVideosPage None (Some "again")))
               (λ _ _, inl (Exception "unused")) (λ _, None)
               (inr []) (λ _, inr []) (λ _, inr [])
               (λ _ _ _ _, inl (Exception "unused")) (λ _, 0) in
  list_playlist_videos 1000 env svc "PL1" (demo_world "fresh")
  = (inr None, demo_world "fresh").
Proof.
  intros env svc.
  apply (list_playlist_videos_unbounded env svc "PL1" (mkService demo_credentials)
           (demo_world "fresh") (demo_world "fresh")).
  - vm_compute. reflexivity.
  - intros tok. eexists. split; reflexivity.
Defined.

Lemma list_playlists_loop_fails (pages : list Page) (e : exn) (rest : list (exn + Page)) :
  Forall (λ p, truthy_opt (nextPageToken p) = true) pages →
  ∀ (tok : option string) (acc : list json) (w : World),
    ∃ w', list_playlists_loop ((inr <$> pages) ++ inl e :: rest) tok acc w = (inl e, w')
          ∧ fs w' = fs w ∧ session w' = session w.
Proof.
  induction 1 as [|p ps Hp _ IH]; intros tok acc w.
  - simpl. unfold_monad. simpl. by eexists.
  - simpl. unfold_monad. simpl. rewrite Hp.
    match goal with
    | |- context [list_playlists_loop ?s ?t ?a ?w0] =>
        destruct (IH t a w0) as (w' & Heq & Hfs & Hsess);
        change (list_playlists_loop s t a w0 = (inl e, w')) in Heq
    end.
    rewrite Heq. by exists w'.
Qed.

(** X21.  [list_playlists] returns no partial listing: when the host
    refuses a request with an [HttpError] after any number of pages
    were fetched, the handler answers HTTP 400 with the host's error, and
    the playlists of the earlier pages are not returned. *)
Theorem list_playlists_no_partial_listing (env : Env) (w w1 : World) (yt : Service)
    (pages : list Page) (content : option string) (text : string)
    (rest : list (exn + Page)) :
  YoutubeService.get_youtube_service env w = (inr (Some yt), w1) →
  playlist_pages env = (inr <$> pages) ++ inl (HttpError content text) :: rest →
  Forall (λ p, truthy_opt (nextPageToken p) = true) pages →
  ∃ w',
    list_playlists env w
    = (inr (with_status
              (jsonify [("error", JStr ("YouTube API error: " +:+ text));
                        ("status", JStr "error")]) 400), w')
    ∧ fs w' = fs w1.
Proof.
  intros Hsvc Hscript Hpages.
  unfold list_playlists. unfold_monad. rewrite Hsvc, Hscript.
  destruct (list_playlists_loop_fails pages (HttpError content text) rest Hpages
              None [] w1) as (w' & -> & Hfs & _).
  simpl. eexists. split; [reflexivity |]. exact Hfs.
Qed.

Lemma list_playlists_no_partial_listing_witness :
  let env := demo_env (inl (Exception "unused")) None
               ((inr <$> demo_pages) ++ [inl (HttpError None "<HttpError 403 quotaExceeded>")])
               (demo_chat "27") in
  ∃ w',
    list_playlists env (demo_world "fresh")
    = (inr (with_status
              (jsonify [("error", JStr "YouTube API error: <HttpError 403 quotaExceeded>");
                        ("status", JStr "error")]) 400), w')
    ∧ fs w' = fs (demo_world "fresh").
Proof.
  intros env.
  apply (list_playlists_no_partial_listing env (demo_world "fresh") (demo_world "fresh")
           (mkService demo_credentials) demo_pages None
           "<HttpError 403 quotaExceeded>" []).
  - vm_compute. reflexivity.
  - reflexivity.
  - repeat constructor.
Defined.

(** X22.  The playlist endpoints report a failure of the host instead of
    hiding it: with a usable credential and a well-formed request, an
    [HttpError] of the host gives HTTP 400 carrying the host's text, any
    other exception gives HTTP 500.  (The same insert is best-effort inside
    [upload_video].) *)
Theorem playlist_endpoints_report_host_errors (env : Env) (svc : Services)
    (request : Request) (data : gmap string string) (playlist_id vid : string)
    (e : exn) (yt : Service) (w w1 : World) :
  YoutubeService.get_youtube_service env w = (inr (Some yt), w1) →
  get_json request = Some data →
  data !! "video_id" = Some vid →
  Str.truthy vid = true →
  let code := match e with HttpError _ _ => 400 | Exception _ => 500 end in
  let message := match e with
                 | HttpError _ text => "YouTube API error: " +:+ text
                 | Exception text => text
                 end in
  let answer := with_status (jsonify [("error", JStr message); ("status", JStr "error")])
                            code in
  (playlist_items_insert svc playlist_id vid = inl e →
   (add_video_to_playlist env svc request playlist_id w).1 = inr answer)
  ∧ (playlists_delete svc playlist_id = Some e →
     (delete_playlist env svc playlist_id w).1 = inr answer).
Proof.
  intros Hsvc Hjson Hvid Htruthy code message answer.
  assert (data ≠ ∅) as Hne by (intros ->; by rewrite lookup_empty in Hvid).
  split.
  - intros Hins. unfold add_video_to_playlist. unfold_monad.
    rewrite Hjson. rewrite (bool_decide_eq_false_2 _ Hne).
    rewrite Hvid. simpl. rewrite Htruthy. simpl. rewrite Hsvc. simpl.
    rewrite Hins. subst answer message code. by destruct e.
  - intros Hdel. unfold delete_playlist. unfold_monad.
    rewrite Hsvc. rewrite Hdel. subst answer message code. by destruct e.
Qed.

Lemma playlist_endpoints_report_host_errors_witness :
  let env := demo_env (inl (Exception "unused")) None [] (demo_chat "27") in
  let request := mkRequest None ∅ (Some {[ "video_id" := "dQw4w9WgXcQ" ]}) in
  (add_video_to_playlist env demo_services request "PL1" (demo_world "fresh")).1
  = inr (with_status
           (jsonify [("error", JStr "YouTube API error: <HttpError 404 playlistNotFound>");
                     ("status", JStr "error")]) 400).
Proof.
  intros env request.
  apply (proj1 (playlist_endpoints_report_host_errors env demo_services request
                  {[ "video_id" := "dQw4w9WgXcQ" ]} "PL1" "dQw4w9WgXcQ"
                  (HttpError None "<HttpError 404 playlistNotFound>")
                  (mkService demo_credentials) (demo_world "fresh") (demo_world "fresh")
                  ltac:(vm_compute; reflexivity) eq_refl
                  ltac:(vm_compute; reflexivity) eq_refl)).
  reflexivity.
Defined.

(* ===================================================================== *)
(** ** No exception leaves an endpoint *)
(* ===================================================================== *)

Lemma never_raises_try_except {A : Type} (m : M A) (h : exn → M A) :
  (∀ e, never_raises (h e)) → never_raises (try_except m h).
Proof.
  intros Hh w. unfold try_except.
  destruct (m w) as [[e|a] w']; [apply Hh | by eauto].
Qed.

Lemma never_raises_playlist_error (what : string) (e : exn) :
  never_raises (playlist_error what e).
Proof. intros w. destruct e; simpl; unfold_monad; by eauto. Qed.

Lemma never_raises_metadata_error (what : string) (e : exn) :
  never_raises (metadata_error what e).
Proof. intros w. unfold metadata_error. unfold_monad. by eauto. Qed.

(** X23.  No exception leaves these endpoints and helpers: whatever the
    request, the stored credential and the answers of the video host, the
    OAuth provider and the language model, each of them returns (an HTTP
    response, or the helper's value).  Every call that can raise sits in a
    [try] whose [except Exception] clause only logs and builds a response;
    [validate_upload] is taken as it is served, with the body parsed or
    refused inside its [try].  For [list_playlist_videos] this is said of
    every bounded run.  ([upload_video] and [list_playlists] are not among
    them.) *)
Theorem endpoints_never_raise (env : Env) (svc : Services) (http : HttpRequest)
    (request : Request) (text : string) (fuel : nat) :
  never_raises (Served.validate_upload env http)
  ∧ never_raises (generate_metadata env request)
  ∧ never_raises (generate_title_only svc request)
  ∧ never_raises (generate_description_only svc request)
  ∧ never_raises (generate_keywords svc request)
  ∧ never_raises (create_playlist env svc request)
  ∧ never_raises (list_playlist_videos fuel env svc text)
  ∧ never_raises (add_video_to_playlist env svc request text)
  ∧ never_raises (delete_playlist env svc text)
  ∧ never_raises (auth_status env svc)
  ∧ never_raises (login svc)
  ∧ never_raises (callback env svc text)
  ∧ never_raises (logout env)
  ∧ never_raises (get_channel_info svc)
  ∧ never_raises (validate_video_id svc text)
  ∧ never_raises (get_video_categories svc text).
Proof.
  repeat match goal with |- _ ∧ _ => split end;
    try (apply never_raises_try_except; intros e;
         first [ apply never_raises_playlist_error
               | apply never_raises_metadata_error
               | intros w; unfold_monad; destruct e; simpl; by eauto ]).
  intros w. pose proof (auth_status_cases env svc w) as H.
  destruct (lookup_file (TOKEN_FILE (config env)) (fs w)) as [data|];
    [| by eauto].
  destruct (from_authorized_user_file env data); [by eauto |].
  destruct (valid (now env) c); by eauto.
Qed.

(* ===================================================================== *)
(** ** Upload: what a success means, how a failure is reported *)
(* ===================================================================== *)

Lemma next_chunk_loop_result (chunks : list (option Z))
    (final : exn + (option Z * VideoResource)) (w : World) :
  ∃ w', next_chunk_loop chunks final w
        = (match final with inl e => inl e | inr r => inr r.2 end, w').
Proof.
  revert w. induction chunks as [|c rest IH]; intros w; simpl; unfold_monad; simpl.
  - destruct final as [e|[st v]]; simpl; [by eauto |].
    destruct st; simpl; by eauto.
  - destruct c; simpl; apply IH.
Qed.

Lemma upload_and_attach_success_inv (env : Env) (title description : string)
    (tags : list string) (category_id privacy_status : string)
    (playlist_id : option string) (temp_path : path) (resp : Response) (w w' : World) :
  upload_and_attach env title description tags category_id privacy_status
                    playlist_id temp_path w = (inr resp, w') →
  videos_insert_error env = None
  ∧ ∃ st v, upload_final env = inr (st, v) ∧ resp = upload_success (video_id v) title.
Proof.
  unfold upload_and_attach, MediaFileUpload, read_file, add_to_playlist. unfold_monad.
  destruct (lookup_file temp_path (fs w)); simpl; [| done].
  destruct (videos_insert_error env) as [e|]; simpl; [done |].
  match goal with
  | |- context [next_chunk_loop ?c ?f ?w0] =>
      destruct (next_chunk_loop_result c f w0) as (w2 & ->)
  end.
  destruct (upload_final env) as [e|[st v]]; simpl; [done |].
  intros Hrun. split; [reflexivity |]. exists st, v. split; [reflexivity |].
  destruct playlist_id as [pid|]; simpl in Hrun; [| by inversion Hrun].
  destruct (Str.truthy pid); simpl in Hrun; [| by inversion Hrun].
  destruct (playlist_insert_error env) as [[c t|t]|]; simpl in Hrun;
    by inversion Hrun.
Qed.

Lemma cleanup_returns (p : path) (d : string) (w : World) :
  ∃ w', cleanup p d w = (inr (), w').
Proof.
  unfold cleanup, os_remove, os_rmdir. unfold_monad.
  destruct (fs w !! p.1) as [files|]; simpl; [| by eauto].
  destruct (files !! p.2); simpl; [| by eauto].
  destruct (<[p.1:=delete p.2 files]> (fs w) !! d) as [rest|]; simpl; [| by eauto].
  case_bool_decide; simpl; by eauto.
Qed.

Lemma upload_error_status (e : exn) (w : World) :
  ∃ resp w', upload_error e w = (inr resp, w')
             ∧ status resp = match e with HttpError _ _ => 400 | Exception _ => 500 end.
Proof. destruct e; simpl; unfold_monad; by eauto. Qed.

(** X24.  [upload_video] reports success only for a video the host
    confirmed: whenever it answers HTTP 200, the request carried an
    acceptable file, the resumable upload returned a video, and the body is
    the success body with that video's id and URL. *)
Theorem upload_video_success_means_uploaded (env : Env) (request : Request)
    (resp : Response) (w w' : World) :
  upload_video env request w = (inr resp, w') →
  status resp = 200 →
  ∃ file st v,
    files_video request = Some file
    ∧ allowed_file (filename file) = true
    ∧ videos_insert_error env = None
    ∧ upload_final env = inr (st, v)
    ∧ resp = upload_success (video_id v)
                            (get_default (form request) "title" "Untitled Video").
Proof.
  unfold upload_video, tempfile_mkdtemp, file_save, write_file. unfold_monad.
  destruct (files_video request) as [file|]; [| by intros [= <- _] [=]].
  destruct (String.eqb (filename file) ""); [by intros [= <- _] [=] |].
  destruct (allowed_file (filename file)) eqn:Hext; simpl; [| by intros [= <- _] [=]].
  destruct (YoutubeService.get_youtube_service env w) as [[e|[yt|]] w1]; simpl.
  - destruct (upload_error_status e w1) as (r & w2 & -> & Hst).
    intros [= <- _] H200. rewrite H200 in Hst. by destruct e.
  - destruct (fs w1 !! mkdtemp_name env); simpl; [by intros [= <- _] [=] |].
    destruct (save_error env) as [e|]; simpl.
    { destruct (upload_error_status e
                  (set_fs (<[mkdtemp_name env:=∅]> (fs w1)) w1)) as (r & w2 & -> & Hst).
      intros [= <- _] H200. rewrite H200 in Hst. by destruct e. }
    rewrite lookup_insert_eq. simpl.
    match goal with
    | |- context [upload_and_attach ?e0 ?t ?d ?g ?c ?p ?l ?tp ?w0] =>
        pose proof (upload_and_attach_success_inv e0 t d g c p l tp) as Hinv;
        destruct (upload_and_attach e0 t d g c p l tp w0) as [[e|r] w2] eqn:Hjob
    end.
    + match goal with
      | |- context [cleanup ?p ?d ?w0] =>
          destruct (cleanup_returns p d w0) as (w3 & ->)
      end.
      destruct (upload_error_status e w3) as (r & w4 & -> & Hst).
      intros [= <- _] H200. rewrite H200 in Hst. by destruct e.
    + match goal with
      | |- context [cleanup ?p ?d ?w0] =>
          destruct (cleanup_returns p d w0) as (w3 & ->)
      end.
      intros [= <- _] _.
      destruct (Hinv _ _ _ Hjob) as (Hins & st & v & Hfinal & ->).
      exists file, st, v. by repeat split.
  - by intros [= <- _] [=].
Qed.

Lemma upload_video_success_means_uploaded_witness :
  let env := demo_env (inr (Some 100, mkVideo "dQw4w9WgXcQ")) None [] (demo_chat "27") in
  let request := demo_upload_request "VIDEO.MP4" 2048 {[ "title" := "Holiday" ]} in
  ∃ file st v,
    files_video request = Some file
    ∧ allowed_file (filename file) = true
    ∧ videos_insert_error env = None
    ∧ upload_final env = inr (st, v)
    ∧ upload_success "dQw4w9WgXcQ" "Holiday"
      = upload_success (video_id v)
                       (get_default (form request) "title" "Untitled Video").
Proof.
  intros env request.
  apply (upload_video_success_means_uploaded env request
           (upload_success "dQw4w9WgXcQ" "Holiday") (demo_world "fresh")
           (upload_video env request (demo_world "fresh")).2).
  - vm_compute. reflexivity.
  - reflexivity.
Defined.

Lemma upload_job_fails (env : Env) (request : Request) (file : FileStorage)
    (e : exn) (w : World) :
  is_Some (lookup_file (temp_path_of env file) (fs w)) →
  videos_insert_error env = None →
  upload_final env = inl e →
  ∃ w', upload_job env request file w = (inl e, w').
Proof.
  intros [data Hdata] Hins Hfinal.
  unfold upload_job, upload_and_attach, MediaFileUpload, read_file. unfold_monad.
  rewrite Hdata. simpl. rewrite Hins. simpl.
  match goal with
  | |- context [next_chunk_loop ?c ?f ?w0] =>
      destruct (next_chunk_loop_result c f w0) as (w2 & ->)
  end.
  rewrite Hfinal. by eauto.
Qed.

(** X25.  When the resumable upload fails, [upload_video] reports it and
    still cleans up.  An [HttpError] of the host gives HTTP 400 whose error
    text carries the host's payload as it came (or the error's own text
    when there is no payload); any other exception gives HTTP 500 with its
    text.  In both cases the temporary directory is gone. *)
Theorem upload_video_reports_upload_failure (env : Env) (request : Request)
    (file : FileStorage) (e : exn) (w w1 : World) :
  reaches_save env request file w w1 →
  videos_insert_error env = None →
  upload_final env = inl e →
  let answer :=
    match e with
    | HttpError content text =>
        with_status
          (jsonify [("error", JStr ("YouTube API error: "
                                    +:+ (if truthy_opt content then default "" content
                                         else text)));
                    ("status", JStr "error")]) 400
    | Exception text =>
        with_status (jsonify [("error", JStr text); ("status", JStr "error")]) 500
    end in
  ∃ w', upload_video env request w = (inr answer, w') ∧ fs w' = fs w1.
Proof.
  intros Hreach Hins Hfinal answer.
  rewrite (upload_video_reaches_save _ _ _ _ _ Hreach).
  destruct Hreach as (_ & _ & _ & _ & Hfresh & _).
  destruct (upload_job_fails env request file e (saved_world env file w1))
    as (w3 & Hjob); try done.
  { unfold lookup_file, temp_path_of. simpl.
    rewrite lookup_insert_eq. simpl. rewrite lookup_singleton_eq. by eexists. }
  pose proof (keeps_fs_upload_and_attach env
                (get_default (form request) "title" "Untitled Video")
                (get_default (form request) "description" "")
                (clean_tags (if truthy_opt (form request !! "tags")
                             then Str.split "," (get_default (form request) "tags" "")
                             else []))
                (get_default (form request) "category_id" "22")
                (get_default (form request) "privacy_status" "private")
                (form request !! "playlist_id")
                (temp_path_of env file) (saved_world env file w1)) as Hframe.
  fold (upload_job env request file) in Hframe. rewrite Hjob in Hframe.
  unfold try_except, try_finally. rewrite Hjob.
  rewrite (saved_world_cleanup env file w1 w3 Hfresh Hframe).
  subst answer. destruct e as [content text | text]; simpl; unfold_monad;
    eexists; split; reflexivity.
Qed.

Lemma upload_video_reports_upload_failure_witness :
  let env := demo_env (inl (HttpError (Some "{quotaExceeded}") "<HttpError 403>"))
                      None [] (demo_chat "27") in
  let request := demo_upload_request "VIDEO.MP4" 2048 ∅ in
  ∃ w',
    upload_video env request (demo_world "fresh")
    = (inr (with_status
              (jsonify [("error", JStr "YouTube API error: {quotaExceeded}");
                        ("status", JStr "error")]) 400), w')
    ∧ fs w' = fs (demo_world "fresh").
Proof.
  intros env request.
  apply (upload_video_reports_upload_failure env request (mkFile "VIDEO.MP4" 2048)
           (HttpError (Some "{quotaExceeded}") "<HttpError 403>")
           (demo_world "fresh") (demo_world "fresh")).
  - split; [reflexivity |].
    split; [discriminate |].
    split; [vm_compute; reflexivity |].
    split; [exists (mkService demo_credentials); vm_compute; reflexivity |].
    split; [vm_compute; reflexivity | reflexivity].
  - reflexivity.
  - reflexivity.
Defined.

(* ===================================================================== *)
(** ** Validation: the exact verdict *)
(* ===================================================================== *)

Lemma limit_set (env : Env) (http : HttpRequest) (limit : Z) :
  MAX_CONTENT_LENGTH (config env) = Some limit →
  (within_limit env http ↔ content_length http ≤ limit)
  ∧ (body_parsed env http ↔ content_length http ≤ limit).
Proof.
  intros Hmax. unfold within_limit, body_parsed. rewrite Hmax. split; split.
  - intros (l & Hl & Hle). by inversion Hl; subst.
  - intros Hle. by exists limit.
  - intros Hle. by apply Hle.
  - intros Hle l Hl. by inversion Hl; subst.
Qed.

Lemma limit_unset (env : Env) (http : HttpRequest) :
  MAX_CONTENT_LENGTH (config env) = None →
  (within_limit env http ↔ False) ∧ (body_parsed env http ↔ True).
Proof.
  intros Hmax. unfold within_limit, body_parsed. rewrite Hmax. split; split; try done.
  by intros (l & Hl & _).
Qed.

(** X26.  The verdict of [validate_upload] as it is served.  For a request
    carrying a named file, in a body longer than the file, the endpoint
    reports valid=true (HTTP 200) exactly when the extension is acceptable,
    [MAX_CONTENT_LENGTH] is set and the body is no longer than it.  It
    answers HTTP 400 exactly when the body is parsed and the extension is
    not acceptable: the size check of lines 190-195 never fires, since a
    file it would refuse arrives in a body werkzeug has refused already
    (HTTP 500), and with [MAX_CONTENT_LENGTH] unset the comparison raises
    (HTTP 500).  The world gets log lines at most. *)
Theorem validate_upload_verdict (env : Env) (http : HttpRequest)
    (file : FileStorage) (w : World) :
  files_video (parsed http) = Some file →
  filename file ≠ "" →
  well_framed http →
  ∃ resp w',
    Served.validate_upload env http w = (inr resp, w')
    ∧ fs w' = fs w ∧ session w' = session w ∧ host_calls w' = host_calls w
    ∧ (dict_get "valid" (body resp) = Some (JBool true)
       ↔ allowed_file (filename file) = true ∧ within_limit env http)
    ∧ (status resp = 200
       ↔ allowed_file (filename file) = true ∧ within_limit env http)
    ∧ (status resp = 400
       ↔ allowed_file (filename file) = false ∧ body_parsed env http)
    ∧ (status resp = 200 ∨ status resp = 400 ∨ status resp = 500)
    ∧ (dict_get "valid" (body resp) = Some (JBool true)
       ∨ dict_get "valid" (body resp) = Some (JBool false)).
Proof.
  intros Hfile Hname Hframed. pose proof (Hframed file Hfile) as Hbody.
  apply String.eqb_neq in Hname.
  destruct (MAX_CONTENT_LENGTH (config env)) as [limit|] eqn:Hmax.
  - destruct (limit_set env http limit Hmax) as [Hwithin Hparsed].
    destruct (Z_le_gt_dec (content_length http) limit) as [Hshort | Hlong].
    + rewrite served_validate_upload_parsed by (by apply Hparsed).
      unfold validate_upload, validate_upload_from. unfold_monad.
      rewrite Hfile, Hname.
      destruct (allowed_file (filename file)) eqn:Hext; simpl.
      * rewrite Hmax. unfold seek. simpl. rewrite Z.add_0_r.
        assert ((stream_length file >? limit) = false) as ->.
        { rewrite Z.gtb_ltb. apply Z.ltb_ge. lia. }
        eexists _, w. split; [reflexivity |]. simpl.
        split_and!; try reflexivity; intuition (first [done | lia | by eauto]).
      * eexists _, w. split; [reflexivity |]. simpl.
        split_and!; try reflexivity; intuition (first [done | lia | by eauto]).
    + rewrite (served_validate_upload_refused env http limit w Hmax Hlong).
      eexists _, _. split; [reflexivity |]. simpl.
      split_and!; try reflexivity; intuition (first [done | lia | by eauto]).
  - destruct (limit_unset env http Hmax) as [Hwithin Hparsed].
    rewrite served_validate_upload_parsed by (by apply Hparsed).
    unfold validate_upload, validate_upload_from. unfold_monad.
    rewrite Hfile, Hname.
    destruct (allowed_file (filename file)) eqn:Hext; simpl.
    + rewrite Hmax. simpl.
      eexists _, _. split; [reflexivity |]. simpl.
      split_and!; try reflexivity; intuition (first [done | lia | by eauto]).
    + eexists _, w. split; [reflexivity |]. simpl.
      split_and!; try reflexivity; intuition (first [done | lia | by eauto]).
Qed.

Lemma validate_upload_verdict_witness :
  let env := demo_env (inl (Exception "unused")) None [] (demo_chat "27") in
  let http := demo_http_request "holiday.mp4" (400 * MiB) 212 in
  ∃ resp w',
    Served.validate_upload env http (demo_world "fresh") = (inr resp, w')
    ∧ dict_get "valid" (body resp) = Some (JBool true).
Proof.
  intros env http.
  destruct (validate_upload_verdict env http (mkFile "holiday.mp4" (400 * MiB))
              (demo_world "fresh")) as (resp & w' & Hrun & _ & _ & _ & Hvalid & _).
  - reflexivity.
  - discriminate.
  - intros file Hfile. inversion Hfile; subst. vm_compute. reflexivity.
  - exists resp, w'. split; [exact Hrun |]. apply Hvalid.
    split; [vm_compute; reflexivity |].
    exists (500 * MiB). split; [reflexivity | vm_compute; discriminate].
Defined.

(* ===================================================================== *)
(** ** What is sent to the host *)
(* ===================================================================== *)

Lemma only_calls_silent {A : Type} (P : HostCall → Prop) (m : M A) :
  (∀ w, host_calls (m w).2 = host_calls w) → only_calls P m.
Proof. intros H w c Hc. rewrite H in Hc. by left. Qed.

Lemma only_calls_call_host (P : HostCall → Prop) (c : HostCall) :
  P c → only_calls P (call_host c).
Proof.
  intros Hc w c' Hin. simpl in Hin.
  apply elem_of_app in Hin as [Hin | Hin]; [by left |].
  apply list_elem_of_singleton in Hin as ->. by right.
Qed.

Lemma only_calls_bind {A B : Type} (P : HostCall → Prop) (m : M A) (k : A → M B) :
  only_calls P m → (∀ a, only_calls P (k a)) → only_calls P (m ≫= k).
Proof.
  intros Hm Hk w c. unfold mbind, M_bind.
  specialize (Hm w c). destruct (m w) as [[e|a] w1]; simpl in *; [exact Hm |].
  intros Hc. destruct (Hk a w1 c Hc) as [Hin | HP]; [by apply Hm | by right].
Qed.

Lemma only_calls_try_except {A : Type} (P : HostCall → Prop) (m : M A) (h : exn → M A) :
  only_calls P m → (∀ e, only_calls P (h e)) → only_calls P (try_except m h).
Proof.
  intros Hm Hh w c. unfold try_except.
  specialize (Hm w c). destruct (m w) as [[e|a] w1]; simpl in *; [| exact Hm].
  intros Hc. destruct (Hh e w1 c Hc) as [Hin | HP]; [by apply Hm | by right].
Qed.

Lemma only_calls_try_except_http {A : Type} (P : HostCall → Prop) (m : M A)
    (h : option string → string → M A) :
  only_calls P m → (∀ c t, only_calls P (h c t)) → only_calls P (try_except_http m h).
Proof.
  intros Hm Hh w c. unfold try_except_http.
  specialize (Hm w c). destruct (m w) as [[[content text|text]|a] w1]; simpl in *;
    [| exact Hm..].
  intros Hc. destruct (Hh content text w1 c Hc) as [Hin | HP]; [by apply Hm | by right].
Qed.

Lemma only_calls_try_finally {A : Type} (P : HostCall → Prop) (m : M A) (f : M unit) :
  only_calls P m → only_calls P f → only_calls P (try_finally m f).
Proof.
  intros Hm Hf w c. unfold try_finally.
  specialize (Hm w c). destruct (m w) as [r w1]; simpl in *.
  specialize (Hf w1 c). destruct (f w1) as [[e|[]] w2]; simpl in *;
    intros Hc; (destruct (Hf Hc) as [Hin | HP]; [by apply Hm | by right]).
Qed.

Lemma get_youtube_service_silent (env : Env) (w : World) :
  host_calls (YoutubeService.get_youtube_service env w).2 = host_calls w.
Proof.
  unfold_service.
  destruct (lookup_file (TOKEN_FILE (config env)) (fs w)) as [data|] eqn:Hf;
    simpl; rewrite ?Hf; simpl; [| done].
  destruct (from_authorized_user_file env data) as [e|c]; simpl; [done |].
  destruct (valid (now env) c); simpl.
  { destruct (build env c); simpl; done. }
  destruct (expired (now env) c && truthy_opt (refresh_token c)); simpl; [| done].
  destruct (refresh env c) as [e|c']; simpl; [done |].
  destruct (lookup_file_dir _ _ _ Hf) as (d & -> & _). simpl.
  destruct (build env c'); simpl; done.
Qed.

Lemma cleanup_silent (p : path) (d : string) (w : World) :
  host_calls (cleanup p d w).2 = host_calls w.
Proof.
  unfold cleanup, os_remove, os_rmdir. unfold_monad.
  destruct (fs w !! p.1) as [files|]; simpl; [| done].
  destruct (files !! p.2); simpl; [| done].
  destruct (<[p.1:=delete p.2 files]> (fs w) !! d) as [rest|]; simpl; [| done].
  case_bool_decide; simpl; done.
Qed.

Lemma upload_error_silent (e : exn) (w : World) :
  host_calls (upload_error e w).2 = host_calls w.
Proof. destruct e; simpl; unfold_monad; done. Qed.

Ltac calls :=
  repeat lazymatch goal with
    | |- only_calls _ (try_except _ _) => apply only_calls_try_except; [| intros ? ]
    | |- only_calls _ (try_except_http _ _) =>
        apply only_calls_try_except_http; [| intros ? ? ]
    | |- only_calls _ (try_finally _ _) => apply only_calls_try_finally
    | |- only_calls _ (_ ≫= _) => apply only_calls_bind; [| intros ? ]
    | |- only_calls _ _ =>
        solve [ apply only_calls_silent; intros ?; unfold_monad; reflexivity ]
    end.

Lemma only_calls_log_progress (P : HostCall → Prop) (st : option Z) :
  only_calls P (log_progress st).
Proof. apply only_calls_silent. intros w. by destruct st. Qed.

Lemma only_calls_fail_if (P : HostCall → Prop) (e : option exn) :
  only_calls P (fail_if e).
Proof. apply only_calls_silent. intros w. by destruct e. Qed.

Lemma only_calls_read_file (P : HostCall → Prop) (p : path) :
  only_calls P (read_file p).
Proof.
  apply only_calls_silent. intros w. unfold read_file.
  by destruct (lookup_file p (fs w)).
Qed.

Lemma only_calls_write_file (P : HostCall → Prop) (p : path) (data : FileData) :
  only_calls P (write_file p data).
Proof.
  apply only_calls_silent. intros w. unfold write_file.
  by destruct (fs w !! p.1).
Qed.

Lemma only_calls_next_chunk_loop (P : HostCall → Prop) (chunks : list (option Z))
    (final : exn + (option Z * VideoResource)) :
  P NextChunk → only_calls P (next_chunk_loop chunks final).
Proof.
  intros HP. induction chunks as [|st rest IH]; simpl.
  - apply only_calls_bind; [by apply only_calls_call_host | intros _].
    apply only_calls_bind; [calls | intros r].
    apply only_calls_bind; [apply only_calls_log_progress | intros _]. calls.
  - apply only_calls_bind; [by apply only_calls_call_host | intros _].
    apply only_calls_bind; [apply only_calls_log_progress | intros _]. exact IH.
Qed.

Lemma only_calls_add_to_playlist (P : HostCall → Prop) (env : Env)
    (playlist_id : option string) (vid : string) :
  (∀ pid, P (PlaylistItemsInsert "snippet" pid vid)) →
  only_calls P (add_to_playlist env playlist_id vid).
Proof.
  intros HP. unfold add_to_playlist.
  destruct playlist_id as [pid|]; [| calls].
  destruct (Str.truthy pid); [| calls].
  apply only_calls_try_except_http; [| intros ??; calls].
  apply only_calls_bind; [by apply only_calls_call_host | intros _].
  apply only_calls_bind; [apply only_calls_fail_if | intros _]. calls.
Qed.

(** X27.  Every tag that [upload_video] sends to the host is clean: not
    empty, without a comma, without white space at either end, whatever the
    'tags' field of the form held.  (Said of every [videos().insert] call
    the handler adds to those already made.) *)
Theorem upload_video_sends_clean_tags (env : Env) (request : Request) (w : World)
    (part : string) (vbody : VideoBody) (media : path) :
  VideosInsert part vbody media ∈ host_calls (upload_video env request w).2 →
  VideosInsert part vbody media ∈ host_calls w
  ∨ Forall (λ t, clean_tag t = true) (snippet_tags vbody).
Proof.
  set (P := λ c : HostCall,
         ∀ part vbody media, c = VideosInsert part vbody media →
                             Forall (λ t, clean_tag t = true) (snippet_tags vbody)).
  assert (only_calls P (upload_video env request)) as Hcalls.
  { unfold upload_video.
    apply only_calls_try_except;
      [| intros e; apply only_calls_silent, upload_error_silent].
    destruct (files_video request) as [file|]; [| calls].
    destruct (String.eqb (filename file) ""); [calls |].
    destruct (negb (allowed_file (filename file))); [calls |].
    apply only_calls_bind;
      [apply only_calls_silent, get_youtube_service_silent | intros [yt|]]; [| calls].
    apply only_calls_bind.
    { apply only_calls_silent. intros w0. unfold tempfile_mkdtemp.
      by destruct (fs w0 !! mkdtemp_name env). }
    intros temp_dir.
    apply only_calls_bind.
    { unfold file_save. apply only_calls_bind; [apply only_calls_fail_if | intros _].
      apply only_calls_write_file. }
    intros _.
    apply only_calls_try_finally;
      [| apply only_calls_silent; intros w0; apply cleanup_silent].
    unfold upload_and_attach, MediaFileUpload.
    apply only_calls_bind.
    { apply only_calls_bind; [apply only_calls_read_file | intros _]. calls. }
    intros p.
    apply only_calls_bind; [calls | intros _].
    apply only_calls_bind.
    { apply only_calls_call_host. intros part' vbody' media' [= _ <- _]. simpl.
      apply clean_tags_clean.
      destruct (truthy_opt (form request !! "tags")); [apply split_pieces | constructor]. }
    intros _.
    apply only_calls_bind; [apply only_calls_fail_if | intros _].
    apply only_calls_bind; [by apply only_calls_next_chunk_loop | intros response].
    apply only_calls_bind; [calls | intros _].
    apply only_calls_bind; [by apply only_calls_add_to_playlist | intros _]. calls. }
  intros Hin. destruct (Hcalls w _ Hin) as [Hold | Hnew]; [by left | right].
  by apply (Hnew part vbody media).
Qed.

Lemma upload_video_sends_clean_tags_witness :
  let env := demo_env (inr (Some 100, mkVideo "dQw4w9WgXcQ")) None [] (demo_chat "27") in
  let request := demo_upload_request "VIDEO.MP4" 2048 {[ "tags" := " a, b ,,c " ]} in
  let sent := mkVideoBody "Untitled Video" "" ["a"; "b"; "c"] "22" "private"
                          true "youtube" true in
  let call := VideosInsert "snippet,status" sent ("/tmp/tmpa1b2c3", "VIDEO.MP4") in
  call ∈ host_calls (upload_video env request (demo_world "fresh")).2
  ∧ (call ∈ host_calls (demo_world "fresh")
     ∨ Forall (λ t, clean_tag t = true) (snippet_tags sent)).
Proof.
  intros env request sent call.
  assert (call ∈ host_calls (upload_video env request (demo_world "fresh")).2) as Hin.
  { vm_compute. apply list_elem_of_here. }
  split; [exact Hin |].
  exact (upload_video_sends_clean_tags env request (demo_world "fresh") _ _ _ Hin).
Defined.

(* ===================================================================== *)
(** ** Thumbnail: wrapping the title *)
(* ===================================================================== *)

Lemma join_app (sep : string) (a b : list string) :
  a ≠ [] → b ≠ [] →
  Str.join sep (a ++ b) = Str.join sep a +:+ sep +:+ Str.join sep b.
Proof.
  intros Ha Hb. induction a as [|x [|y a'] IH]; [done | |].
  - simpl. by destruct b.
  - change (Str.join sep ((x :: y :: a') ++ b))
      with (x +:+ sep +:+ Str.join sep ((y :: a') ++ b)).
    rewrite IH by done.
    change (Str.join sep (x :: y :: a')) with (x +:+ sep +:+ Str.join sep (y :: a')).
    by rewrite !append_assoc.
Qed.

Lemma join_line (sep : string) (l cur r : list string) :
  cur ≠ [] →
  Str.join sep (l ++ [Str.join sep cur] ++ r) = Str.join sep (l ++ cur ++ r).
Proof.
  intros Hcur.
  assert (Str.join sep ([Str.join sep cur] ++ r) = Str.join sep (cur ++ r)) as Hone.
  { destruct r as [|y r'].
    - by rewrite !app_nil_r.
    - by rewrite (join_app sep cur (y :: r')). }
  destruct l as [|x l']; [exact Hone |].
  rewrite (join_app sep (x :: l')) by done.
  rewrite (join_app sep (x :: l') (cur ++ r)) by (try done; by destruct cur).
  by rewrite Hone.
Qed.

Lemma wrap_words_keeps_words (svc : Services) (width : Z) (words : list string) :
  ∀ (lines current_line ls c : list string),
    wrap_words svc width words lines current_line = (ls, c) →
    Str.join " " (if nonempty c then ls ++ [Str.join " " c] else ls)
    = Str.join " " (lines ++ current_line ++ words).
Proof.
  induction words as [|word rest IH]; intros lines cur ls c Hrun; simpl in Hrun.
  - injection Hrun as <- <-. rewrite app_nil_r.
    destruct cur as [|x cur']; [by rewrite app_nil_r |].
    simpl nonempty. cbv iota.
    pose proof (join_line " " lines (x :: cur') [] ltac:(done)) as H.
    rewrite !app_nil_r in H. exact H.
  - destruct (text_width svc (Str.join " " (cur ++ [word])) <=? width - 100).
    + rewrite (IH _ _ _ _ Hrun). by rewrite <- !app_assoc.
    + destruct cur as [|x cur']; simpl in Hrun.
      * rewrite (IH _ _ _ _ Hrun). by rewrite <- !app_assoc.
      * rewrite (IH _ _ _ _ Hrun). rewrite <- !app_assoc.
        apply (join_line " " lines (x :: cur') ([word] ++ rest)). done.
Qed.

(** X28.  Wrapping the title for the thumbnail loses no word and keeps
    their order: the lines, joined by single blanks, read as the words of
    the title joined by single blanks, whatever the widths of the texts and
    of the image. *)
Theorem wrap_title_keeps_words (svc : Services) (width : Z) (title : string) :
  Str.join " " (wrap_title svc width title) = Str.join " " (split_whitespace title).
Proof.
  unfold wrap_title.
  destruct (wrap_words svc width (split_whitespace title) [] []) as [ls c] eqn:Hrun.
  apply (wrap_words_keeps_words svc width _ [] [] ls c) in Hrun.
  exact Hrun.
Qed.

Lemma wrap_words_lines_fit (svc : Services) (width : Z) (all : list string)
    (words : list string) :
  let ok := λ line, text_width svc line ≤ width - 100 ∨ line ∈ all in
  ∀ (lines current_line ls c : list string),
    wrap_words svc width words lines current_line = (ls, c) →
    words ⊆ all →
    Forall ok lines →
    (current_line = [] ∨ ok (Str.join " " current_line)) →
    Forall ok ls ∧ (c = [] ∨ ok (Str.join " " c)).
Proof.
  intros ok. induction words as [|word rest IH];
    intros lines cur ls c Hrun Hall Hlines Hcur; simpl in Hrun.
  - by injection Hrun as <- <-.
  - assert (word ∈ all) as Hword by (apply Hall, list_elem_of_here).
    assert (rest ⊆ all) as Hrest
      by (intros x Hx; by apply Hall, list_elem_of_further).
    destruct (text_width svc (Str.join " " (cur ++ [word])) <=? width - 100) eqn:Hfit.
    + apply (IH _ _ _ _ Hrun Hrest Hlines).
      right. left. by apply Z.leb_le.
    + destruct cur as [|x cur']; simpl in Hrun.
      * apply (IH _ _ _ _ Hrun Hrest); [| by left].
        apply Forall_app. split; [exact Hlines |].
        constructor; [by right | constructor].
      * apply (IH _ _ _ _ Hrun Hrest).
        -- apply Forall_app. split; [exact Hlines |].
           constructor; [by destruct Hcur | constructor].
        -- right. right. exact Hword.
Qed.

(** X29.  Every line the title is wrapped into either fits the image with
    the 100-pixel margin or is a single word of the title (a word too wide
    to fit is put on a line of its own, unbroken). *)
Theorem wrap_title_lines_fit (svc : Services) (width : Z) (title : string) :
  Forall (λ line, text_width svc line ≤ width - 100 ∨ line ∈ split_whitespace title)
         (wrap_title svc width title).
Proof.
  unfold wrap_title.
  destruct (wrap_words svc width (split_whitespace title) [] []) as [ls c] eqn:Hrun.
  destruct (wrap_words_lines_fit svc width (split_whitespace title)
              (split_whitespace title) [] [] ls c Hrun) as [Hls Hc].
  - done.
  - constructor.
  - by left.
  - destruct c as [|x c']; [exact Hls |].
    simpl nonempty. cbv iota. apply Forall_app. split; [exact Hls |].
    constructor; [by destruct Hc | constructor].
Qed.

(** X30.  A wrapped line that fits is drawn centred: with a text width
    between 0 and the image width less the 100-pixel margin, the x it is
    drawn at leaves at least 50 pixels, half the margin, on either side of
    the text; and consecutive lines are [font_size + 10] pixels apart. *)
Theorem line_position_centred (svc : Services) (width height font_size : Z)
    (n i : nat) (line : string) :
  0 ≤ text_width svc line ≤ width - 100 →
  let '(x, y) := line_position svc width height font_size n i line in
  let '(_, y_next) := line_position svc width height font_size n (S i) line in
  50 ≤ x
  ∧ x + text_width svc line ≤ width - 50
  ∧ y_next - y = font_size + 10.
Proof.
  intros Hfit. unfold line_position. cbv zeta.
  repeat split.
  - apply Z.div_le_lower_bound; lia.
  - assert ((width - text_width svc line) / 2 ≤ width - text_width svc line - 50);
      [| lia].
    apply Z.div_le_upper_bound; lia.
  - rewrite Nat2Z.inj_succ. lia.
Qed.

Lemma line_position_centred_witness :
  let '(x, y) := line_position demo_services 1280 720 72 2 0 "twelve thirteen" in
  let '(_, y_next) := line_position demo_services 1280 720 72 2 1 "twelve thirteen" in
  50 ≤ x
  ∧ x + text_width demo_services "twelve thirteen" ≤ 1280 - 50
  ∧ y_next - y = 72 + 10.
Proof.
  apply (line_position_centred demo_services 1280 720 72 2 0 "twelve thirteen").
  vm_compute. split; discriminate.
Defined.
